(** * pyslam ground-truth readers: a shallow embedding of [ground_truth.py]

    The development follows the Python module class by class: the Python
    values and exceptions the module manipulates, the timestamp associator
    shared by the TUM and EuRoC readers, the association cache, the frame
    accessors and scale reconstructors of every reader, and the two batch
    operations of the base class (trajectory extraction and export).

    Python floats are IEEE binary64 numbers and are modelled by Rocq's
    primitive floats, which compute with the same arithmetic. *)

From Stdlib Require Import ZArith PrimFloat FloatOps FloatAxioms SpecFloat.
From Stdlib Require Import DecimalString DecimalZ DecimalPos.
From Stdlib Require Uint63.
From stdpp Require Import gmap strings list fin_maps.

Set Warnings "-inexact-float".
Set Default Proof Using "Type".

(** ** Python values, exceptions and built-ins *)

(** The exceptions that the module can raise. *)
Inductive exn := IndexError | KeyError | ValueError | TypeError | OverflowError.

(** A computation either returns a value or raises. *)
Inductive result (A : Type) :=
  | Ok (a : A)
  | Raise (e : exn).
Arguments Ok {A} a.
Arguments Raise {A} e.

Definition bind {A B} (m : result A) (k : A → result B) : result B :=
  match m with
  | Ok a => k a
  | Raise e => Raise e
  end.

Notation "'let!' x ':=' m 'in' k" := (bind m (λ x, k))
  (at level 10, x pattern, m at level 100, k at level 200,
   format "'[v' 'let!'  x  ':='  m  'in' '/' k ']'").

Definition is_ok {A} (m : result A) : Prop := ∃ a, m = Ok a.

(** The scalar values stored in rows and in association entries. *)
Inductive pyval :=
  | PInt (z : Z)
  | PFloat (f : float)
  | PStr (s : string).

(** A row is the sequence of scalars of one record: the tokens of a line, or
    the items of an association entry as the readers index them. *)
Abbreviation row := (list pyval).

(** A candidate of the associator is the tuple [(diff, ia, ib)]. *)
Abbreviation cand := (float * nat * nat)%type.

(** The tuple [timestamp, x, y, z, abs_scale]. *)
Abbreviation sample := (float * float * float * float * float)%type.

(** A value of the association map as Python holds it: [associate] stores
    tuples, [json.load] returns lists. The two answer indexing alike but are
    never equal to one another. *)
Inductive pyseq :=
  | PTuple (items : row)
  | PList (items : row).

Definition seq_items (v : pyseq) : row :=
  match v with
  | PTuple items | PList items => items
  end.

(** What the [json] library does with the scalars inside a value: the text it
    writes for a number or a string, and the scalar it reads back from such
    a text. This is library code; the development is parametric in it. *)
Class JsonScalars := {
  json_scalar : Type;
  (** the encoder on an [int], a [float] or a [str] *)
  scalar_dumps : pyval → json_scalar;
  (** the decoder on the text of a number or of a string *)
  scalar_loads : json_scalar → pyval;
}.

(** The members of a JSON object, in file order: a key string and the array
    stored under it, an array being the sequence of the texts of its
    scalars. *)
Abbreviation json_items := (list (string * list json_scalar)).

(** Built-ins of Python and numpy that the module calls. They are not part
    of the repository; the development is parametric in them. *)
Class PyBuiltins := {
  (** [float(s)] on a string; raises [ValueError] on malformed text. *)
  float_of_str : string → result float;
  (** [float(n)] on an integer; raises [OverflowError] when too large. *)
  float_of_int : Z → result float;
  (** [line.strip().split()] *)
  strip_split : string → list string;
  (** [line.strip()] *)
  strip : string → string;
  (** ["%f" % x] *)
  format_f : float → string;
  (** the cast of [np.array(..., dtype=np.float32)] on one number *)
  to_float32 : float → float;
}.

(** [l[i]] on a Python list, with negative indices counted from the end. *)
Definition py_getitem {A} (l : list A) (i : Z) : result A :=
  let n := Z.of_nat (length l) in
  let j := if (i <? 0)%Z then (i + n)%Z else i in
  if ((j <? 0) || (n <=? j))%Z then Raise IndexError
  else match l !! Z.to_nat j with
       | Some x => Ok x
       | None => Raise IndexError
       end.

(** [l[i]] for an index produced by [enumerate], which is never negative. *)
Definition list_get {A} (l : list A) (i : nat) : result A :=
  match l !! i with
  | Some x => Ok x
  | None => Raise IndexError
  end.

(** [d[k]] on a Python dict. *)
Definition dict_get {V} (d : gmap Z V) (k : Z) : result V :=
  match d !! k with
  | Some v => Ok v
  | None => Raise KeyError
  end.

Section WithBuiltins.
Context `{PyBuiltins} `{JsonScalars}.

(** [float(v)] *)
Definition py_float (v : pyval) : result float :=
  match v with
  | PFloat f => Ok f
  | PInt z => float_of_int z
  | PStr s => float_of_str s
  end.

(** ** The associator ([TumGroundTruth.associate], [EurocGroundTruth.associate]) *)

(** The two static methods are the same code up to the tuple they store. *)
Inductive assoc_kind := TumAssoc | EurocAssoc.

(** [float(a[0])] *)
Definition stamp (a : row) : result float :=
  let! v := py_getitem a 0 in py_float v.

(** [abs(float(a[0]) - (float(b[0]) + offset))] *)
Definition stamp_diff (offset : float) (a b : row) : result float :=
  let! fa := stamp a in
  let! fb := stamp b in
  Ok (abs (fa - (fb + offset)))%float.

(** Inner loop of the comprehension: [for ib, b in enumerate(second_list)]
    with its filter, for a fixed [(ia, a)]; [ib] is the running counter. *)
Fixpoint candidates_row (offset max_difference : float) (ia : nat) (a : row)
    (second_list : list row) (ib : nat) : result (list cand) :=
  match second_list with
  | [] => Ok []
  | b :: bs =>
      let! d := stamp_diff offset a b in
      if (d <? max_difference)%float then
        let! d' := stamp_diff offset a b in
        let! rest := candidates_row offset max_difference ia a bs (S ib) in
        Ok ((d', ia, ib) :: rest)
      else candidates_row offset max_difference ia a bs (S ib)
  end.

(** Outer loop: [for ia, a in enumerate(first_list)]. *)
Fixpoint candidates_from (offset max_difference : float) (first_list : list row)
    (ia : nat) (second_list : list row) : result (list cand) :=
  match first_list with
  | [] => Ok []
  | a :: as_ =>
      let! here := candidates_row offset max_difference ia a second_list 0 in
      let! rest := candidates_from offset max_difference as_ (S ia) second_list in
      Ok (here ++ rest)
  end.

Definition potential_matches (first_list second_list : list row)
    (offset max_difference : float) : result (list cand) :=
  candidates_from offset max_difference first_list 0 second_list.

(** Python's [<] on the tuples [(diff, ia, ib)]: the first position where the
    two tuples differ decides. *)
Definition cand_lt (x y : cand) : bool :=
  let '(d1, a1, b1) := x in
  let '(d2, a2, b2) := y in
  if negb (d1 =? d2)%float then (d1 <? d2)%float
  else if negb (a1 =? a2)%nat then (a1 <? a2)%nat
  else (b1 <? b2)%nat.

(** [list.sort()]: a stable ascending sort that only uses [<]. *)
Fixpoint sort_insert (x : cand) (l : list cand) : list cand :=
  match l with
  | [] => [x]
  | y :: l' => if cand_lt y x then y :: sort_insert x l' else x :: y :: l'
  end.

Fixpoint py_sort (l : list cand) : list cand :=
  match l with
  | [] => []
  | x :: l' => sort_insert x (py_sort l')
  end.

(** The locals of the greedy scan. *)
Record scan_state := ScanState {
  matches : gmap Z row;
  first_flag : list bool;
  second_flag : list bool;
}.

(** The tuple stored in [matches[ia]]. *)
Definition make_entry (kind : assoc_kind) (first_list second_list : list row)
    (diff : float) (ia ib : nat) : result row :=
  match kind with
  | EurocAssoc => Ok [PInt (Z.of_nat ib); PFloat diff]
  | TumAssoc =>
      let! a := list_get first_list ia in
      let! a0 := py_getitem a 0 in
      let! b := list_get second_list ib in
      let! b0 := py_getitem b 0 in
      Ok [PInt (Z.of_nat ib); PFloat diff; a0; b0]
  end.

(** One iteration of [for diff, ia, ib in potential_matches]. *)
Definition scan_step (kind : assoc_kind) (first_list second_list : list row)
    (st : scan_state) (c : cand) : result scan_state :=
  let '(diff, ia, ib) := c in
  let! fa := list_get (first_flag st) ia in
  if fa then Ok st else
  let! fb := list_get (second_flag st) ib in
  if fb then Ok st else
  let first_flag' := <[ia := true]> (first_flag st) in
  let second_flag' := <[ib := true]> (second_flag st) in
  let! e := make_entry kind first_list second_list diff ia ib in
  Ok (ScanState (<[Z.of_nat ia := e]> (matches st)) first_flag' second_flag').

Fixpoint scan (kind : assoc_kind) (first_list second_list : list row)
    (cs : list cand) (st : scan_state) : result scan_state :=
  match cs with
  | [] => Ok st
  | c :: cs' =>
      let! st' := scan_step kind first_list second_list st c in
      scan kind first_list second_list cs' st'
  end.

(** [[(ia, a) for ia, a in enumerate(first_list) if first_flag[ia] is False]] *)
Fixpoint missing_from (first_list : list row) (ia : nat) (flags : list bool)
    : result (list (nat * row)) :=
  match first_list with
  | [] => Ok []
  | a :: as_ =>
      let! f := list_get flags ia in
      let! rest := missing_from as_ (S ia) flags in
      Ok (if f then rest else (ia, a) :: rest)
  end.

(** The body of [associate(first_list, second_list, offset, max_difference)]
    up to its [return]: the final locals of the scan and the list
    [missing_associations]. *)
Definition associate_run (kind : assoc_kind) (first_list second_list : list row)
    (offset max_difference : float) : result (scan_state * list (nat * row)) :=
  let! pm := potential_matches first_list second_list offset max_difference in
  let pm := py_sort pm in
  let st0 := ScanState ∅ (replicate (length first_list) false)
                         (replicate (length second_list) false) in
  let! st := scan kind first_list second_list pm st0 in
  let! missing_associations := missing_from first_list 0 (first_flag st) in
  Ok (st, missing_associations).

(** [associate] returns [matches]; the second component is
    [num_missing_associations], which the method reports through
    [Printer.red] when it is positive. *)
Definition associate (kind : assoc_kind) (first_list second_list : list row)
    (offset max_difference : float) : result (gmap Z row * nat) :=
  let! r := associate_run kind first_list second_list offset max_difference in
  let num_missing_associations := length r.2 in
  Ok (matches r.1, num_missing_associations).

(** Whether the error message is printed. *)
Definition reports_missing (num_missing_associations : nat) : bool :=
  (0 <? num_missing_associations)%nat.

(** ** The association cache ([__init__] of the TUM and EuRoC readers) *)

(** [str(k)] on an integer key, as [json.dump] writes it. *)
Definition str_of_int (k : Z) : string := NilZero.string_of_int (Z.to_int k).

(** The characters that [int] skips around a numeral and the decimal digits,
    for ASCII text. *)
Definition is_py_space (c : Ascii.ascii) : bool :=
  let n := Ascii.nat_of_ascii c in
  ((n =? 32) || ((9 <=? n) && (n <=? 13)) || ((28 <=? n) && (n <=? 31)))%nat.

Definition is_py_digit (c : Ascii.ascii) : bool :=
  let n := Ascii.nat_of_ascii c in ((48 <=? n) && (n <=? 57))%nat.

(** Whether [c] is the one character of the string [s]. *)
Definition is_char (s : string) (c : Ascii.ascii) : bool :=
  String.eqb s (String c EmptyString).

Fixpoint lstrip_space (s : string) : string :=
  match s with
  | EmptyString => EmptyString
  | String c s' => if is_py_space c then lstrip_space s' else s
  end.

Fixpoint rstrip_space (s : string) : string :=
  match s with
  | EmptyString => EmptyString
  | String c s' =>
      match rstrip_space s' with
      | EmptyString => if is_py_space c then EmptyString else String c EmptyString
      | r => String c r
      end
  end.

(** The digits of a numeral: at least one digit, and single underscores
    allowed between two digits only. [after_digit] tells whether the previous
    character was a digit. *)
Fixpoint digits_of (s : string) (after_digit : bool) : option string :=
  match s with
  | EmptyString => if after_digit then Some EmptyString else None
  | String c s' =>
      if is_py_digit c then String c <$> digits_of s' true
      else if is_char "_" c && after_digit then digits_of s' false
      else None
  end.

(** [int(k)] on a key read back, for ASCII text: blanks around the numeral
    are skipped, a sign may precede the digits, single underscores may
    separate digits, leading zeros are allowed; anything else raises
    [ValueError]. (Python also accepts the decimal digits and blanks of
    other scripts; keys written by [json.dump] are ASCII.) *)
Definition int_of_str (s : string) : result Z :=
  let s := rstrip_space (lstrip_space s) in
  let '(negative, numeral) :=
    match s with
    | String c s' =>
        if is_char "-" c then (true, s')
        else if is_char "+" c then (false, s')
        else (false, s)
    | EmptyString => (false, s)
    end in
  match digits_of numeral false ≫= NilEmpty.uint_of_string with
  | Some d => Ok (Z.of_int (if negative then Decimal.Neg d else Decimal.Pos d))
  | None => Raise ValueError
  end.

(** One member of the object that [json.dump] writes: the integer key as its
    decimal string, and the value, tuple or list, as the array of its
    scalars. *)
Definition dump_member (kv : Z * pyseq) : string * list json_scalar :=
  (str_of_int kv.1, scalar_dumps <$> seq_items kv.2).

(** [json.dump(self.association_matches, f)]: one member per entry of the
    dict. Python writes the members in the insertion order of the dict, the
    model in the order of [map_to_list]; the keys being distinct, what is
    loaded back does not depend on that order. *)
Definition json_dump (association_matches : gmap Z pyseq) : json_items :=
  dump_member <$> map_to_list association_matches.

(** [{int(k): v for k, v in data.items()}], where [data = json.load(f)]:
    every array comes back as a list of the scalars read from its texts. *)
Fixpoint json_load_from (items : json_items) (acc : gmap Z pyseq)
    : result (gmap Z pyseq) :=
  match items with
  | [] => Ok acc
  | (k, v) :: items' =>
      let! k' := int_of_str k in
      json_load_from items' (<[k' := PList (scalar_loads <$> v)]> acc)
  end.

Definition json_load (data : json_items) : result (gmap Z pyseq) :=
  json_load_from data ∅.

(** The branch on [os.path.exists(associations_file)]: [cache] is the content
    of the sidecar file when it exists. Returns [association_matches], whose
    values are the tuples of [associate] or the lists of [json.load], and the
    content written to the sidecar, if any. *)
Definition load_or_associate (kind : assoc_kind) (cache : option json_items)
    (first_list second_list : list row) (offset max_difference : float)
    : result (gmap Z pyseq * option json_items) :=
  match cache with
  | None =>
      let! r := associate kind first_list second_list offset max_difference in
      let association_matches := PTuple <$> r.1 in
      Ok (association_matches, Some (json_dump association_matches))
  | Some data =>
      let! m := json_load data in
      Ok (m, None)
  end.

(** ** The readers *)

Definition kScaleSimple : float := 1.
Definition kScaleKitti : float := 1.
Definition kScaleTum : float := 1.
Definition kScaleEuroc : float := 1.

(** An instance of [GroundTruth] or of one of its subclasses, with the
    attributes that the methods read. The base class leaves [data] at
    [None]; the simple and KITTI readers keep the raw lines of the file;
    the TUM and EuRoC readers keep the lines already split into tokens,
    together with the association map. *)
Inductive GroundTruth :=
  | Base (start_frame_id : Z)
  | Simple (data : list string) (start_frame_id : Z)
  | Kitti (data data_timestamps : list string) (start_frame_id : Z)
  | Tum (data : list row) (association_matches : gmap Z row) (start_frame_id : Z)
  | Euroc (data : list row) (association_matches : gmap Z row) (start_frame_id : Z).

Definition start_frame_id (gt : GroundTruth) : Z :=
  match gt with
  | Base s | Simple _ s | Kitti _ _ s | Tum _ _ s | Euroc _ _ s => s
  end.

Definition scale (gt : GroundTruth) : float :=
  match gt with
  | Base _ => 1
  | Simple _ _ => kScaleSimple
  | Kitti _ _ _ => kScaleKitti
  | Tum _ _ _ => kScaleTum
  | Euroc _ _ _ => kScaleEuroc
  end.

(** [len(self.data)] *)
Definition len_data (gt : GroundTruth) : result nat :=
  match gt with
  | Base _ => Raise TypeError
  | Simple data _ | Kitti data _ _ => Ok (length data)
  | Tum data _ _ | Euroc data _ _ => Ok (length data)
  end.

Definition getNumSamples (gt : GroundTruth) : result nat := len_data gt.

(** [self.data[self.association_matches[frame_id][0]]] *)
Definition associated_line (data : list row) (association_matches : gmap Z row)
    (frame_id : Z) : result row :=
  let! entry := dict_get association_matches frame_id in
  let! ib := py_getitem entry 0 in
  match ib with
  | PInt i => py_getitem data i
  | _ => Raise TypeError
  end.

(** [getDataLine]: the method of the base class, inherited by the simple and
    KITTI readers, and its overrides in the TUM and EuRoC readers. *)
Definition getDataLine (gt : GroundTruth) (frame_id : Z) : result row :=
  match gt with
  | Base _ => Raise TypeError
  | Simple data s | Kitti data _ s =>
      let frame_id := (frame_id + s)%Z in
      let! line := py_getitem data frame_id in
      Ok (PStr <$> strip_split line)
  | Tum data m _ | Euroc data m _ => associated_line data m frame_id
  end.

(** [float(ss[i])] *)
Definition field (ss : row) (i : Z) : result float :=
  let! v := py_getitem ss i in py_float v.

(** [np.sqrt((x - x_prev)*(x - x_prev) + (y - y_prev)*(y - y_prev)
            + (z - z_prev)*(z - z_prev))] *)
Definition displacement (x y z x_prev y_prev z_prev : float) : float :=
  sqrt ((x - x_prev) * (x - x_prev) + (y - y_prev) * (y - y_prev)
        + (z - z_prev) * (z - z_prev))%float.

(** The body shared by the simple, TUM and EuRoC readers: the position is in
    the fields 1 to 3 and the timestamp in field 0 of the current line. *)
Definition reconstruct_xyz (gt : GroundTruth) (frame_id : Z) : result sample :=
  let frame_id := (frame_id + start_frame_id gt)%Z in
  let! ss := getDataLine gt (frame_id - 1) in
  let! x_prev := field ss 1 in let x_prev := (scale gt * x_prev)%float in
  let! y_prev := field ss 2 in let y_prev := (scale gt * y_prev)%float in
  let! z_prev := field ss 3 in let z_prev := (scale gt * z_prev)%float in
  let! ss := getDataLine gt frame_id in
  let! timestamp := field ss 0 in
  let! x := field ss 1 in let x := (scale gt * x)%float in
  let! y := field ss 2 in let y := (scale gt * y)%float in
  let! z := field ss 3 in let z := (scale gt * z)%float in
  let abs_scale := displacement x y z x_prev y_prev z_prev in
  Ok (timestamp, x, y, z, abs_scale).

(** The KITTI reader: the position is the last column of the 3x4 pose matrix
    and the timestamp comes from the second file. *)
Definition reconstruct_kitti (gt : GroundTruth) (data_timestamps : list string)
    (frame_id : Z) : result sample :=
  let frame_id := (frame_id + start_frame_id gt)%Z in
  let! ss := getDataLine gt (frame_id - 1) in
  let! x_prev := field ss 3 in let x_prev := (scale gt * x_prev)%float in
  let! y_prev := field ss 7 in let y_prev := (scale gt * y_prev)%float in
  let! z_prev := field ss 11 in let z_prev := (scale gt * z_prev)%float in
  let! ss := getDataLine gt frame_id in
  let! x := field ss 3 in let x := (scale gt * x)%float in
  let! y := field ss 7 in let y := (scale gt * y)%float in
  let! z := field ss 11 in let z := (scale gt * z)%float in
  let abs_scale := displacement x y z x_prev y_prev z_prev in
  let! line := py_getitem data_timestamps frame_id in
  let! timestamp := float_of_str (strip line) in
  Ok (timestamp, x, y, z, abs_scale).

(** [getTimePoseAndAbsoluteScale], dispatched on the class of [self]. *)
Definition getTimePoseAndAbsoluteScale (gt : GroundTruth) (frame_id : Z)
    : result sample :=
  match gt with
  | Base _ => Ok (1, 0, 0, 0, 1)%float
  | Simple _ _ | Tum _ _ _ | Euroc _ _ _ => reconstruct_xyz gt frame_id
  | Kitti _ data_timestamps _ => reconstruct_kitti gt data_timestamps frame_id
  end.

(** ** Batch operations of the base class *)

(** [range(a, b)] *)
Definition py_range (a b : Z) : list Z :=
  (λ i, a + Z.of_nat i)%Z <$> seq 0 (Z.to_nat (b - a)).

(** The loop of [getFull3dTrajectory]; the accumulator is the pair of lists
    [self.trajectory], [self.timestamps]. A bare [except] swallows whatever
    the reconstruction raises. *)
Fixpoint trajectory_loop (gt : GroundTruth) (iis : list Z)
    (trajectory : list (list float)) (timestamps : list float)
    : list (list float) * list float :=
  match iis with
  | [] => (trajectory, timestamps)
  | ii :: iis' =>
      match getTimePoseAndAbsoluteScale gt ii with
      | Ok (timestamp, x, y, z, _) =>
          trajectory_loop gt iis' (trajectory ++ [[x; y; z]]) (timestamps ++ [timestamp])
      | Raise _ => trajectory_loop gt iis' trajectory timestamps
      end
  end.

Definition getFull3dTrajectory (gt : GroundTruth)
    : result (list (list float) * list float) :=
  let! num_lines := len_data gt in
  let r := trajectory_loop gt (py_range 1 (Z.of_nat num_lines - 1)) [] [] in
  Ok (map (map to_float32) r.1, r.2).

(** ["%f %f %f %f %f\n" % (timestamp, x, y, z, scale)] *)
Definition newline : string := String (Ascii.ascii_of_nat 10) EmptyString.

Definition format_line (smp : sample) : string :=
  let '(timestamp, x, y, z, scale) := smp in
  format_f timestamp +:+ " " +:+ format_f x +:+ " " +:+ format_f y +:+ " "
    +:+ format_f z +:+ " " +:+ format_f scale +:+ newline.

(** The loop of [convertToSimpleXYZ]; [out] is what has been written to the
    file so far, one element per [write]. An exception leaves the loop with
    the lines written before it. *)
Fixpoint export_loop (gt : GroundTruth) (iis : list Z) (out : list string)
    : list string * result unit :=
  match iis with
  | [] => (out, Ok ())
  | ii :: iis' =>
      match getTimePoseAndAbsoluteScale gt ii with
      | Ok (timestamp, x, y, z, scale) =>
          let scale := if (ii =? 0)%Z then 1%float else scale in
          export_loop gt iis' (out ++ [format_line (timestamp, x, y, z, scale)])
      | Raise e => (out, Raise e)
      end
  end.

Definition convertToSimpleXYZ (gt : GroundTruth) : list string * result unit :=
  match len_data gt with
  | Ok num_lines => export_loop gt (py_range 0 (Z.of_nat num_lines)) []
  | Raise e => ([], Raise e)
  end.

End WithBuiltins.

(** ** The nearest-timestamp lookup and the TUM constructor *)

(** [np.isnan(x)] *)
Definition is_nan (x : float) : bool := negb (x =? x)%float.

(** The loop of numpy's [argmin] on a one-dimensional float64 array: [mp] is
    the minimum so far and [min_ind] its index; an element replaces it when
    it is not [>= mp], and a NaN ends the search. *)
Fixpoint argmin_from (a : list float) (i : nat) (mp : float) (min_ind : nat) : nat :=
  match a with
  | [] => min_ind
  | x :: a' =>
      if negb (mp <=? x)%float then
        if is_nan x then i else argmin_from a' (S i) x i
      else argmin_from a' (S i) mp min_ind
  end.

(** [np.argmin(a)]: the index of the first minimum, a NaN counting as the
    minimum; [ValueError] on an empty array. *)
Definition np_argmin (a : list float) : result nat :=
  match a with
  | [] => Raise ValueError
  | x :: a' => Ok (if is_nan x then 0 else argmin_from a' 1 x 0)
  end.

Section WithBuiltinsMore.
Context `{PyBuiltins} `{JsonScalars}.

(** [getClosestTimestamp]: [timestamps] is the attribute [self.timestamps]
    before the call ([None] until the trajectory has been extracted); the
    result is the returned timestamp and the attribute after the call. *)
Definition getClosestTimestamp (gt : GroundTruth) (timestamps : option (list float))
    (timestamp : float) : result (float * list float) :=
  let! timestamps :=
    match timestamps with
    | Some ts => Ok ts
    | None => let! r := getFull3dTrajectory gt in Ok r.2
    end in
  let! i := np_argmin ((λ t, abs (t - timestamp)%float) <$> timestamps) in
  let! closest := list_get timestamps i in
  Ok (closest, timestamps).

(** [[line.strip().split() for line in lines]] *)
Definition split_lines (lines : list string) : list row :=
  (λ line, PStr <$> strip_split line) <$> lines.

(** [TumGroundTruth.__init__] once the files are read: [groundtruth] and
    [associations] are the lines of the two text files and [cache] the
    content of [gt_associations.json] when that file exists. Returns the
    reader and what is written to the sidecar, if anything. The methods of
    the reader only index the values of [association_matches], so the reader
    keeps their items, whether they are tuples or lists. *)
Definition tum_init (groundtruth associations : list string)
    (cache : option json_items) (start_frame_id : Z)
    : result (GroundTruth * option json_items) :=
  let data := split_lines (drop 3 groundtruth) in
  let associations := split_lines associations in
  let! r := load_or_associate TumAssoc cache associations data 0
              (0.025 * 1000000000)%float in
  Ok (Tum data (seq_items <$> r.1) start_frame_id, r.2).

End WithBuiltinsMore.

(** ** A concrete instance of the built-ins, for the examples

    The examples below run the model on concrete files. They need the
    built-ins on a handful of inputs only: ASCII lines, the numerals listed
    in the two tables, integers below 2^53 and numbers that binary32
    represents exactly. On these inputs the functions below return what
    Python returns. *)
Module Examples.

Definition is_space (c : Ascii.ascii) : bool :=
  let n := Ascii.nat_of_ascii c in
  ((n =? 32) || ((9 <=? n) && (n <=? 13)))%nat.

Fixpoint words (s : string) (cur : string) : list string :=
  match s with
  | EmptyString => if String.eqb cur "" then [] else [cur]
  | String c s' =>
      if is_space c then
        (if String.eqb cur "" then words s' "" else cur :: words s' "")
      else words s' (cur +:+ String c "")
  end.

Fixpoint lstrip (s : string) : string :=
  match s with
  | EmptyString => EmptyString
  | String c s' => if is_space c then lstrip s' else s
  end.

Definition ex_strip (s : string) : string :=
  String.rev (lstrip (String.rev (lstrip s))).

Definition float_table : list (string * float) :=
  [("0.0", 0); ("1.0", 1); ("2.0", 2); ("3.0", 3); ("4.0", 4); ("5.0", 5);
   ("6.0", 6); ("8.0", 8); ("0.1", 0.1); ("0.2", 0.2); ("0.3", 0.3)]%float.

Definition format_table : list (float * string) :=
  [(0, "0.000000"); (1, "1.000000"); (2, "2.000000"); (3, "3.000000");
   (4, "4.000000"); (5, "5.000000"); (6, "6.000000"); (8, "8.000000")]%float.

Fixpoint lookup_str (s : string) (t : list (string * float)) : result float :=
  match t with
  | [] => Raise ValueError
  | (k, v) :: t' => if String.eqb s k then Ok v else lookup_str s t'
  end.

Fixpoint lookup_float (x : float) (t : list (float * string)) : string :=
  match t with
  | [] => "?"
  | (k, v) :: t' => if (x =? k)%float then v else lookup_float x t'
  end.

Definition ex_float_of_int (z : Z) : result float :=
  if (Z.abs z <? 2 ^ 53)%Z then
    Ok (if (z <? 0)%Z then - of_uint63 (Uint63.of_Z (- z))
        else of_uint63 (Uint63.of_Z z))%float
  else Raise OverflowError.

#[export] Instance example_builtins : PyBuiltins := {|
  float_of_str s := lookup_str s float_table;
  float_of_int z := ex_float_of_int z;
  strip_split s := words s "";
  strip := ex_strip;
  format_f x := lookup_float x format_table;
  to_float32 x := x;
|}.

(** In the examples the text of a scalar is the scalar itself: what is
    written is read back unchanged. *)
#[export] Instance example_json : JsonScalars := {|
  json_scalar := pyval;
  scalar_dumps v := v;
  scalar_loads t := t;
|}.

(** The end-to-end example of the associator: three primary and three
    secondary records that only hold a timestamp. *)
Definition ex_primary : list row := [[PFloat 0.0]; [PFloat 1.0]; [PFloat 2.1]].
Definition ex_secondary : list row := [[PFloat 0.05]; [PFloat 1.02]; [PFloat 5.0]].

(** The map that the EuRoC associator builds from them. *)
Definition ex_matches : gmap Z row :=
  <[1%Z := [PInt 1; PFloat 0.020000000000000018]]>
    (<[0%Z := [PInt 0; PFloat 0.05]]> ∅).

(** The map built from the same records when the secondary clock is half a
    second late and the threshold is 0.6: the closest pair is primary 1 with
    secondary 0, and primary 2 takes secondary 1. *)
Definition ex_matches_shifted : gmap Z row :=
  <[2%Z := [PInt 1; PFloat (abs (2.1 - (1.02 + 0.5)))]]>
    (<[1%Z := [PInt 0; PFloat (abs (1.0 - (0.05 + 0.5)))]]> ∅).

(** The same map with the second difference written [0.02]. *)
Definition ex_matches_rounded : gmap Z row :=
  <[1%Z := [PInt 1; PFloat 0.02]]> (<[0%Z := [PInt 0; PFloat 0.05]]> ∅).

(** A file in the simple format: five samples on a straight line, one step of
    (1, 2, 2) apart, each line being [timestamp x y z]. *)
Definition ln (s : string) : string := s +:+ newline.

Definition ex_lines : list string :=
  [ln "0.0 0.0 0.0 0.0"; ln "1.0 1.0 2.0 2.0"; ln "2.0 2.0 4.0 4.0";
   ln "3.0 3.0 6.0 6.0"; ln "4.0 4.0 8.0 8.0"].

(** The same trajectory as KITTI poses (the identity rotation and the
    position in the last column) with its file of timestamps. *)
Definition ex_poses : list string :=
  [ln "1.0 0.0 0.0 0.0 0.0 1.0 0.0 0.0 0.0 0.0 1.0 0.0";
   ln "1.0 0.0 0.0 1.0 0.0 1.0 0.0 2.0 0.0 0.0 1.0 2.0";
   ln "1.0 0.0 0.0 2.0 0.0 1.0 0.0 4.0 0.0 0.0 1.0 4.0";
   ln "1.0 0.0 0.0 3.0 0.0 1.0 0.0 6.0 0.0 0.0 1.0 6.0";
   ln "1.0 0.0 0.0 4.0 0.0 1.0 0.0 8.0 0.0 0.0 1.0 8.0"].

Definition ex_times : list string :=
  [ln "0.0"; ln "1.0"; ln "2.0"; ln "3.0"; ln "4.0"].

(** A EuRoC dataset over the same trajectory: the lines split into tokens,
    five images stamped 0 to 4, and the association map of the two. *)
Definition ex_rows : list row := (λ l, PStr <$> words l "") <$> ex_lines.

Definition ex_images : list row :=
  [[PFloat 0; PStr "0.png"]; [PFloat 1; PStr "1.png"]; [PFloat 2; PStr "2.png"];
   [PFloat 3; PStr "3.png"]; [PFloat 4; PStr "4.png"]].

Definition ex_assoc : gmap Z row :=
  <[4%Z := [PInt 4; PFloat 0]]> (<[3%Z := [PInt 3; PFloat 0]]>
  (<[2%Z := [PInt 2; PFloat 0]]> (<[1%Z := [PInt 1; PFloat 0]]>
  (<[0%Z := [PInt 0; PFloat 0]]> ∅)))).





End Examples.
Import Examples.

(** ** Predicates used in the statements *)

Section Predicates.
Context `{PyBuiltins}.
Implicit Types (first_list second_list : list row) (offset max_difference : float).

(** A candidate is sound when it names two existing records whose shifted
    timestamp difference is the stored one and is below the threshold. *)
Definition cand_ok first_list second_list offset max_difference (c : cand) : Prop :=
  ∃ a b, first_list !! c.1.2 = Some a ∧ second_list !! c.2 = Some b ∧
         stamp_diff offset a b = Ok c.1.1 ∧ (c.1.1 <? max_difference)%float = true.

(** The number of flags still [False]. *)
Fixpoint count_false (flags : list bool) : nat :=
  match flags with
  | [] => 0
  | b :: flags' => (if b then 0 else 1) + count_false flags'
  end.

(** What the greedy scan maintains between two iterations. *)
Record scan_inv first_list second_list offset max_difference
    (st : scan_state) : Prop := ScanInv {
  inv_len_first : length (first_flag st) = length first_list;
  inv_len_second : length (second_flag st) = length second_list;
  inv_entry : ∀ k e, matches st !! k = Some e →
    ∃ ia ib d rest,
      k = Z.of_nat ia ∧ e = PInt (Z.of_nat ib) :: PFloat d :: rest ∧
      first_flag st !! ia = Some true ∧ second_flag st !! ib = Some true ∧
      cand_ok first_list second_list offset max_difference (d, ia, ib);
  inv_claimed : ∀ ia, first_flag st !! ia = Some true →
    is_Some (matches st !! Z.of_nat ia);
  inv_inj : ∀ k1 k2 e1 e2,
    matches st !! k1 = Some e1 → matches st !! k2 = Some e2 →
    head e1 = head e2 → k1 = k2;
  inv_count : count_false (first_flag st) + size (matches st) = length first_list;
}.

(** The scaled position stored in a record: the fields 1 to 3 of a line,
    or the fields 3, 7 and 11 of a KITTI pose. *)
Definition position (gt : GroundTruth) (ss : row) : result (float * float * float) :=
  let '(ix, iy, iz) :=
    match gt with
    | Kitti _ _ _ => (3, 7, 11)%Z
    | _ => (1, 2, 3)%Z
    end in
  let! x := field ss ix in
  let! y := field ss iy in
  let! z := field ss iz in
  Ok (scale gt * x, scale gt * y, scale gt * z)%float.

(** The timestamp of the record at [index]: field 0 of its line, or the line
    of the KITTI timestamp file at the same index. *)
Definition timestamp_of (gt : GroundTruth) (ss : row) (index : Z) : result float :=
  match gt with
  | Kitti _ data_timestamps _ =>
      let! line := py_getitem data_timestamps index in
      float_of_str (strip line)
  | _ => field ss 0
  end.

(** The Euclidean norm of a step, in binary64 arithmetic. *)
Definition norm3 (dx dy dz : float) : float :=
  sqrt (dx * dx + dy * dy + dz * dz)%float.

(** A TUM ([tum = true]) or EuRoC reader. *)
Definition associated_reader (tum : bool) (data : list row)
    (association_matches : gmap Z row) (start_frame_id : Z) : GroundTruth :=
  if tum then Tum data association_matches start_frame_id
  else Euroc data association_matches start_frame_id.

(** A simple or KITTI ([kitti = true]) reader. *)
Definition line_reader (kitti : bool) (data data_timestamps : list string)
    (start_frame_id : Z) : GroundTruth :=
  if kitti then Kitti data data_timestamps start_frame_id
  else Simple data start_frame_id.

(** The line written for frame [ii] when its reconstruction returned [smp]. *)
Definition written_for (ii : Z) (smp : sample) (line : string) : Prop :=
  let '(timestamp, x, y, z, scale) := smp in
  line = format_f timestamp +:+ " " +:+ format_f x +:+ " " +:+ format_f y +:+ " "
           +:+ format_f z +:+ " "
           +:+ format_f (if (ii =? 0)%Z then 1%float else scale) +:+ newline.

(** The components of a sample that the trajectory keeps. *)
Definition point_of (smp : sample) : list float :=
  let '(_, x, y, z, _) := smp in [x; y; z].

Definition time_of (smp : sample) : float :=
  let '(timestamp, _, _, _, _) := smp in timestamp.

(** Whether the reconstruction of frame [ii] returns. *)
Definition returns_at (gt : GroundTruth) (ii : Z) : bool :=
  match getTimePoseAndAbsoluteScale gt ii with
  | Ok _ => true
  | Raise _ => false
  end.

(** The frames of [iis] whose reconstruction returns, with their samples. *)
Definition attempt (gt : GroundTruth) (ii : Z) : option (Z * sample) :=
  match getTimePoseAndAbsoluteScale gt ii with
  | Ok smp => Some (ii, smp)
  | Raise _ => None
  end.

Definition reconstructed (gt : GroundTruth) (iis : list Z) : list (Z * sample) :=
  omap (attempt gt) iis.

End Predicates.

(** ** Further predicates: the order of floats and the second flags *)

(** A key that orders the binary64 numbers as [<] does: the class (negative
    infinity, negative, zero, positive, positive infinity), then the exponent
    and the mantissa, both negated for negative numbers. *)
Definition sf_key (f : spec_float) : Z * Z * Z :=
  match f with
  | S754_nan => (3, 0, 0)
  | S754_infinity true => (-2, 0, 0)
  | S754_infinity false => (2, 0, 0)
  | S754_zero _ => (0, 0, 0)
  | S754_finite true m e => (-1, - e, - Z.pos m)
  | S754_finite false m e => (1, e, Z.pos m)
  end%Z.

Definition fkey (f : float) : Z * Z * Z := sf_key (Prim2SF f).

Definition key_lt (a b : Z * Z * Z) : Prop :=
  (a.1.1 < b.1.1 ∨
   (a.1.1 = b.1.1 ∧ (a.1.2 < b.1.2 ∨ (a.1.2 = b.1.2 ∧ a.2 < b.2))))%Z.

Definition key_eq (a b : Z * Z * Z) : Prop :=
  (a.1.1 = b.1.1 ∧ a.1.2 = b.1.2 ∧ a.2 = b.2)%Z.

Definition not_nan (f : float) : Prop := Prim2SF f ≠ S754_nan.

(** The order of Python's [<] on candidates whose differences are numbers. *)
Definition cand_key_lt (x y : cand) : Prop :=
  key_lt (fkey x.1.1) (fkey y.1.1) ∨
  (key_eq (fkey x.1.1) (fkey y.1.1) ∧
   (x.1.2 < y.1.2 ∨ (x.1.2 = y.1.2 ∧ x.2 < y.2))).

(** What the greedy scan maintains about the flags of the second list. *)
Record scan_inv_second (second_list : list row) (st : scan_state) : Prop :=
  ScanInvSecond {
  inv_taken : ∀ ib, second_flag st !! ib = Some true →
    ∃ k e, matches st !! k = Some e ∧ head e = Some (PInt (Z.of_nat ib));
  inv_count_second :
    count_false (second_flag st) + size (matches st) = length second_list;
}.

(** A candidate is served once one of its two indices is claimed. *)
Definition served (st : scan_state) (c : cand) : Prop :=
  first_flag st !! c.1.2 = Some true ∨ second_flag st !! c.2 = Some true.

(** The state of the scan with the entries cut down to their first two
    components, which are what the EuRoC associator stores. *)
Definition short_entries (st : scan_state) : scan_state :=
  ScanState (take 2 <$> matches st) (first_flag st) (second_flag st).

Section MorePredicates.
Context `{PyBuiltins}.

(** A line of a simple ground-truth file whose first four fields parse. *)
Definition well_formed (line : string) : Prop :=
  let ss := PStr <$> strip_split line in
  is_ok (field ss 0) ∧ is_ok (field ss 1) ∧ is_ok (field ss 2) ∧ is_ok (field ss 3).

(** A record of a TUM or EuRoC ground truth whose first four fields parse. *)
Definition well_formed_row (ss : row) : Prop :=
  is_ok (field ss 0) ∧ is_ok (field ss 1) ∧ is_ok (field ss 2) ∧ is_ok (field ss 3).

End MorePredicates.


Section CachePredicates.
Context `{JsonScalars}.


End CachePredicates.


(** * Properties *)

(** ** The error monad *)

Lemma bind_ok {A B} (m : result A) (k : A → result B) (b : B) :
  bind m k = Ok b ↔ ∃ a, m = Ok a ∧ k a = Ok b.
Proof.
  destruct m as [a|e]; simpl; split.
  - intros Hk. by exists a.
  - by intros (a' & [= ->] & Hk).
  - done.
  - by intros (a' & [=] & _).
Qed.

(** Splits every hypothesis [bind m k = Ok b] into its two halves. *)
Ltac bind_inv :=
  repeat match goal with
  | Hb : bind _ _ = Ok _ |- _ =>
      let a := fresh "a" in
      let Ha := fresh "Hm" in
      apply bind_ok in Hb as (a & Ha & Hb)
  | Hb : Ok _ = Ok _ |- _ => injection Hb as Hb
  end.

Lemma list_get_ok {A} (l : list A) (i : nat) (x : A) :
  list_get l i = Ok x ↔ l !! i = Some x.
Proof. unfold list_get. destruct (l !! i); split; congruence. Qed.

Lemma py_getitem_nat {A} (l : list A) (i : nat) :
  py_getitem l (Z.of_nat i) = list_get l i.
Proof.
  unfold py_getitem, list_get. cbv zeta.
  assert (Hneg : (Z.of_nat i <? 0)%Z = false) by (apply Z.ltb_ge; lia).
  rewrite Hneg. cbv iota. rewrite Hneg, Nat2Z.id.
  destruct (Z.leb_spec (Z.of_nat (length l)) (Z.of_nat i)) as [Hge|Hlt]; simpl.
  - rewrite lookup_ge_None_2; [done | lia].
  - done.
Qed.

Section AssociatorFacts.
Context `{PyBuiltins}.
Implicit Types (first_list second_list : list row) (offset max_difference : float).

(** ** Timestamps *)

Lemma getitem_head {A} (l : list A) (x : A) :
  py_getitem l 0 = Ok x ↔ head l = Some x.
Proof.
  change 0%Z with (Z.of_nat 0). rewrite py_getitem_nat, list_get_ok.
  by destruct l.
Qed.

(** The difference that the associator compares and stores. *)
Lemma stamp_diff_inv offset a b d :
  stamp_diff offset a b = Ok d →
  ∃ va vb ta tb,
    head a = Some va ∧ py_float va = Ok ta ∧
    head b = Some vb ∧ py_float vb = Ok tb ∧
    d = abs (ta - (tb + offset))%float.
Proof.
  unfold stamp_diff. intros Hd.
  apply bind_ok in Hd as (ta & Hta & Hd). apply bind_ok in Hd as (tb & Htb & Hd).
  injection Hd as <-. unfold stamp in Hta, Htb.
  apply bind_ok in Hta as (va & Hva & Hta). apply bind_ok in Htb as (vb & Hvb & Htb).
  apply getitem_head in Hva, Hvb. by exists va, vb, ta, tb.
Qed.

(** ** Candidates *)

Lemma candidates_row_spec offset max_difference ia a bs ib cs :
  candidates_row offset max_difference ia a bs ib = Ok cs →
  Forall (λ c : cand, c.1.2 = ia ∧ ∃ b, bs !! (c.2 - ib) = Some b ∧ ib ≤ c.2 ∧
            stamp_diff offset a b = Ok c.1.1 ∧
            (c.1.1 <? max_difference)%float = true) cs.
Proof.
  revert ib cs. induction bs as [|b bs IH]; intros ib cs Hc; simpl in Hc.
  - injection Hc as <-. constructor.
  - apply bind_ok in Hc as (d & Hd & Hc).
    assert (Hshift : ∀ cs', candidates_row offset max_difference ia a bs (S ib) = Ok cs' →
      Forall (λ c : cand, c.1.2 = ia ∧ ∃ b', (b :: bs) !! (c.2 - ib) = Some b' ∧
            ib ≤ c.2 ∧ stamp_diff offset a b' = Ok c.1.1 ∧
            (c.1.1 <? max_difference)%float = true) cs').
    { intros cs' Hcs'. apply IH in Hcs'. eapply Forall_impl; [exact Hcs'|].
      intros [[d' i] j]; simpl. intros (-> & b' & Hb' & Hle & Hd' & Hlt).
      split; [done|]. exists b'. split_and!; [|lia|done|done].
      replace (j - ib) with (S (j - S ib)) by lia. done. }
    destruct (d <? max_difference)%float eqn:Hlt.
    + bind_inv. subst cs. constructor; [|by apply Hshift].
      simpl. split; [done|]. exists b. rewrite Nat.sub_diag.
      split_and!; [done|lia|done|]. congruence.
    + by apply Hshift.
Qed.

Lemma candidates_from_spec offset max_difference as_ ia second_list cs :
  candidates_from offset max_difference as_ ia second_list = Ok cs →
  Forall (λ c : cand, ∃ a b, as_ !! (c.1.2 - ia) = Some a ∧ ia ≤ c.1.2 ∧
            second_list !! c.2 = Some b ∧ stamp_diff offset a b = Ok c.1.1 ∧
            (c.1.1 <? max_difference)%float = true) cs.
Proof.
  revert ia cs. induction as_ as [|a as_ IH]; intros ia cs Hc; simpl in Hc.
  - injection Hc as <-. constructor.
  - bind_inv. subst cs. apply Forall_app. split.
    + apply candidates_row_spec in Hm. eapply Forall_impl; [exact Hm|].
      intros [[d i] j]; simpl. intros (-> & b & Hb & _ & Hd & Hlt).
      exists a, b. rewrite Nat.sub_diag, Nat.sub_0_r in *. by split_and!.
    + apply IH in Hm0. eapply Forall_impl; [exact Hm0|].
      intros [[d i] j]; simpl. intros (a' & b & Ha' & Hle & Hb & Hd & Hlt).
      exists a', b. split_and!; [|lia|done|done|done].
      replace (i - ia) with (S (i - S ia)) by lia. done.
Qed.

Lemma potential_matches_ok first_list second_list offset max_difference cs :
  potential_matches first_list second_list offset max_difference = Ok cs →
  Forall (cand_ok first_list second_list offset max_difference) cs.
Proof.
  intros Hc. apply candidates_from_spec in Hc.
  eapply Forall_impl; [exact Hc|].
  intros [[d i] j]; simpl. intros (a & b & Ha & _ & Hb & Hd & Hlt).
  exists a, b. simpl. rewrite Nat.sub_0_r in Ha. done.
Qed.

(** ** Sorting *)

Lemma sort_insert_perm x l : sort_insert x l ≡ₚ x :: l.
Proof.
  induction l as [|y l IH]; simpl; [done|].
  destruct (cand_lt y x); [|done].
  rewrite IH. apply Permutation_swap.
Qed.

Lemma py_sort_perm l : py_sort l ≡ₚ l.
Proof.
  induction l as [|x l IH]; simpl; [done|].
  by rewrite sort_insert_perm, IH.
Qed.

(** ** The greedy scan *)

Lemma count_false_replicate n : count_false (replicate n false) = n.
Proof.
  induction n as [|n IH]; simpl; [done|]. by rewrite IH.
Qed.

Lemma count_false_claim (flags : list bool) i :
  flags !! i = Some false →
  S (count_false (<[i := true]> flags)) = count_false flags.
Proof.
  revert i. induction flags as [|b flags IH]; intros i Hi.
  - done.
  - destruct i as [|i]; simpl in *.
    + by injection Hi as ->.
    + apply IH in Hi. destruct b; simpl; lia.
Qed.

Lemma claim_keeps_true (flags : list bool) i j :
  flags !! j = Some true → <[i := true]> flags !! j = Some true.
Proof.
  intros Hj. destruct (decide (i = j)) as [->|Hne].
  - apply list_lookup_insert_eq. by eapply lookup_lt_Some.
  - by rewrite list_lookup_insert_ne.
Qed.

Lemma make_entry_shape kind first_list second_list d ia ib e :
  make_entry kind first_list second_list d ia ib = Ok e →
  ∃ rest, e = PInt (Z.of_nat ib) :: PFloat d :: rest.
Proof.
  destruct kind; simpl; intros He.
  - bind_inv. subst e. eauto.
  - injection He as <-. eauto.
Qed.

Lemma scan_inv_init first_list second_list offset max_difference :
  scan_inv first_list second_list offset max_difference
    (ScanState ∅ (replicate (length first_list) false)
                 (replicate (length second_list) false)).
Proof.
  split; simpl.
  - apply length_replicate.
  - apply length_replicate.
  - intros k e Hk. by rewrite lookup_empty in Hk.
  - intros ia Hia. apply lookup_replicate in Hia as [[=] _].
  - intros k1 k2 e1 e2 Hk. by rewrite lookup_empty in Hk.
  - by rewrite count_false_replicate, map_size_empty.
Qed.

Lemma scan_step_inv kind first_list second_list offset max_difference st c st' :
  scan_inv first_list second_list offset max_difference st →
  cand_ok first_list second_list offset max_difference c →
  scan_step kind first_list second_list st c = Ok st' →
  scan_inv first_list second_list offset max_difference st'.
Proof.
  intros Hinv Hc Hstep. destruct c as [[d ia] ib]. unfold scan_step in Hstep.
  apply bind_ok in Hstep as (fa & Hfa & Hstep). apply list_get_ok in Hfa.
  destruct fa; [by injection Hstep as <-|].
  apply bind_ok in Hstep as (fb & Hfb & Hstep). apply list_get_ok in Hfb.
  destruct fb; [by injection Hstep as <-|].
  apply bind_ok in Hstep as (e & He & Hstep). injection Hstep as <-.
  apply make_entry_shape in He as [rest ->].
  destruct Hinv as [Hl1 Hl2 Hentry Hclaimed Hinj Hcount].
  assert (Hfresh : matches st !! Z.of_nat ia = None).
  { destruct (matches st !! Z.of_nat ia) as [e'|] eqn:He'; [|done].
    apply Hentry in He' as (ia' & ? & ? & ? & Hk & _ & Hflag & _).
    apply Nat2Z.inj in Hk as <-. congruence. }
  split; simpl.
  - by rewrite length_insert.
  - by rewrite length_insert.
  - intros k e. rewrite lookup_insert. case_decide as Hk.
    + intros [= <-]. subst k. exists ia, ib, d, rest. split_and!; try done.
      * apply list_lookup_insert_eq. by eapply lookup_lt_Some.
      * apply list_lookup_insert_eq. by eapply lookup_lt_Some.
    + intros He. apply Hentry in He as (ia' & ib' & d' & rest' & ? & ? & ? & ? & ?).
      exists ia', ib', d', rest'. split_and!; try done; by apply claim_keeps_true.
  - intros ia'. destruct (decide (ia = ia')) as [<-|Hne].
    + intros _. rewrite lookup_insert_eq. eauto.
    + rewrite list_lookup_insert_ne by done. intros Hia'.
      rewrite lookup_insert_ne by lia. by apply Hclaimed.
  - assert (Hnew : ∀ k e, matches st !! k = Some e →
              head e ≠ Some (PInt (Z.of_nat ib))).
    { intros k e He Hhead.
      apply Hentry in He as (? & ib' & ? & ? & _ & -> & _ & Hflag & _).
      simpl in Hhead. injection Hhead as Hib. apply Nat2Z.inj in Hib as ->.
      congruence. }
    intros k1 k2 e1 e2. rewrite !lookup_insert.
    repeat case_decide; subst; intros He1 He2 Hhead; simplify_eq; try done.
    + exfalso. by eapply Hnew.
    + exfalso. by eapply Hnew.
    + by eapply Hinj.
  - rewrite map_size_insert_None by done.
    apply count_false_claim in Hfa. lia.
Qed.

Lemma scan_inv_preserved kind first_list second_list offset max_difference cs st st' :
  scan_inv first_list second_list offset max_difference st →
  Forall (cand_ok first_list second_list offset max_difference) cs →
  scan kind first_list second_list cs st = Ok st' →
  scan_inv first_list second_list offset max_difference st'.
Proof.
  revert st. induction cs as [|c cs IH]; intros st Hinv Hcs Hscan; simpl in Hscan.
  - by injection Hscan as <-.
  - apply Forall_cons in Hcs as [Hc Hcs].
    apply bind_ok in Hscan as (st1 & Hstep & Hscan).
    eapply IH; [|done|done]. by eapply scan_step_inv.
Qed.

Lemma scan_step_returns kind first_list second_list offset max_difference st c :
  scan_inv first_list second_list offset max_difference st →
  cand_ok first_list second_list offset max_difference c →
  is_ok (scan_step kind first_list second_list st c).
Proof.
  intros Hinv (a & b & Ha & Hb & Hd & _). destruct c as [[d ia] ib]. simpl in *.
  unfold scan_step, is_ok.
  destruct (lookup_lt_is_Some_2 (first_flag st) ia) as [fa Hfa].
  { rewrite (inv_len_first _ _ _ _ _ Hinv). by eapply lookup_lt_Some. }
  destruct (lookup_lt_is_Some_2 (second_flag st) ib) as [fb Hfb].
  { rewrite (inv_len_second _ _ _ _ _ Hinv). by eapply lookup_lt_Some. }
  apply list_get_ok in Hfa, Hfb. rewrite Hfa. simpl.
  destruct fa; [eauto|]. rewrite Hfb. simpl. destruct fb; [eauto|].
  assert (is_ok (make_entry kind first_list second_list d ia ib)) as [e ->];
    [|simpl; eauto].
  destruct kind; simpl; [|unfold is_ok; eauto].
  unfold stamp_diff, stamp in Hd. bind_inv.
  apply list_get_ok in Ha, Hb. rewrite Ha, Hb. simpl.
  rewrite Hm1. simpl. rewrite Hm2. simpl. unfold is_ok; eauto.
Qed.

Lemma scan_returns kind first_list second_list offset max_difference cs st :
  scan_inv first_list second_list offset max_difference st →
  Forall (cand_ok first_list second_list offset max_difference) cs →
  is_ok (scan kind first_list second_list cs st).
Proof.
  revert st. induction cs as [|c cs IH]; intros st Hinv Hcs; simpl.
  - unfold is_ok; eauto.
  - apply Forall_cons in Hcs as [Hc Hcs].
    destruct (scan_step_returns kind _ _ _ _ _ _ Hinv Hc) as [st1 Hst1].
    rewrite Hst1. simpl. apply IH; [|done]. by eapply scan_step_inv.
Qed.

(** ** The missing associations *)

Lemma missing_from_spec as_ ia flags miss :
  missing_from as_ ia flags = Ok miss →
  length miss = count_false (take (length as_) (drop ia flags)) ∧
  NoDup miss.*1 ∧
  ∀ i, i ∈ miss.*1 ↔ ia ≤ i < ia + length as_ ∧ flags !! i = Some false.
Proof.
  revert ia miss. induction as_ as [|a as_ IH]; intros ia miss Hm; simpl in Hm.
  - injection Hm as <-. simpl. split_and!; [done|constructor|].
    intros i. rewrite elem_of_nil. split; [done|]. lia.
  - apply bind_ok in Hm as (f & Hf & Hm). apply list_get_ok in Hf.
    apply bind_ok in Hm as (rest & Hrest & Hm). injection Hm as <-.
    apply IH in Hrest as (Hlen & Hnd & Hin).
    rewrite (drop_S _ _ _ Hf). simpl.
    destruct f; simpl.
    + split_and!; [done|done|]. intros i. rewrite Hin. split.
      * intros [? ?]. split; [lia|done].
      * intros [? Hi]. split; [|done].
        destruct (decide (i = ia)) as [->|]; [congruence|lia].
    + split_and!; [by rewrite Hlen| |].
      * constructor; [|done]. rewrite Hin. lia.
      * intros i. rewrite elem_of_cons, Hin. split.
        -- intros [->|[? ?]]; (split; [lia|done]).
        -- intros [? Hi]. destruct (decide (i = ia)) as [->|]; [by left|].
           right. split; [lia|done].
Qed.

Lemma missing_from_returns as_ ia flags :
  ia + length as_ ≤ length flags → is_ok (missing_from as_ ia flags).
Proof.
  revert ia. induction as_ as [|a as_ IH]; intros ia Hlen; simpl in *.
  - unfold is_ok; eauto.
  - destruct (lookup_lt_is_Some_2 flags ia) as [f Hf]; [lia|].
    apply list_get_ok in Hf. rewrite Hf. simpl.
    destruct (IH (S ia)) as [rest ->]; [lia|]. simpl. unfold is_ok; eauto.
Qed.

(** ** Candidate generation returns when every timestamp parses *)

Lemma candidates_row_returns offset max_difference ia a bs ib :
  is_ok (stamp a) → Forall (λ b, is_ok (stamp b)) bs →
  is_ok (candidates_row offset max_difference ia a bs ib).
Proof.
  intros [fa Hfa] Hbs. revert ib.
  induction Hbs as [|b bs [fb Hfb] _ IH]; intros ib; simpl.
  - unfold is_ok; eauto.
  - unfold stamp_diff. rewrite Hfa, Hfb. simpl.
    destruct (IH (S ib)) as [rest Hrest]. rewrite Hrest.
    destruct (_ <? _)%float; simpl; unfold is_ok; eauto.
Qed.

Lemma candidates_from_returns offset max_difference as_ ia second_list :
  Forall (λ a, is_ok (stamp a)) as_ →
  Forall (λ b, is_ok (stamp b)) second_list →
  is_ok (candidates_from offset max_difference as_ ia second_list).
Proof.
  intros Has Hbs. revert ia.
  induction Has as [|a as_ Ha _ IH]; intros ia; simpl.
  - unfold is_ok; eauto.
  - destruct (candidates_row_returns offset max_difference ia a second_list 0 Ha Hbs)
      as [here ->].
    destruct (IH (S ia)) as [rest ->]. simpl. unfold is_ok; eauto.
Qed.

(** ** The whole method *)

Lemma associate_run_inv kind first_list second_list offset max_difference st miss :
  associate_run kind first_list second_list offset max_difference = Ok (st, miss) →
  scan_inv first_list second_list offset max_difference st ∧
  missing_from first_list 0 (first_flag st) = Ok miss.
Proof.
  unfold associate_run. intros Hrun.
  apply bind_ok in Hrun as (pm & Hpm & Hrun).
  apply bind_ok in Hrun as (st1 & Hscan & Hrun).
  apply bind_ok in Hrun as (miss1 & Hmiss & Hrun).
  injection Hrun as <- <-. split; [|done].
  eapply scan_inv_preserved; [apply scan_inv_init| |exact Hscan].
  rewrite py_sort_perm. by apply potential_matches_ok.
Qed.

Lemma associate_inv kind first_list second_list offset max_difference m n :
  associate kind first_list second_list offset max_difference = Ok (m, n) →
  ∃ st miss,
    associate_run kind first_list second_list offset max_difference = Ok (st, miss) ∧
    m = matches st ∧ n = length miss.
Proof.
  unfold associate. intros Ha. apply bind_ok in Ha as ([st miss] & Hrun & Ha).
  injection Ha as <- <-. eauto.
Qed.

(** [associate] returns a map as soon as the timestamp of every record of
    both sequences can be read. *)
Lemma associate_returns kind first_list second_list offset max_difference :
  Forall (λ a, is_ok (stamp a)) first_list →
  Forall (λ b, is_ok (stamp b)) second_list →
  is_ok (associate kind first_list second_list offset max_difference).
Proof.
  intros Ha Hb. unfold associate, associate_run.
  destruct (candidates_from_returns offset max_difference _ 0 _ Ha Hb) as [pm Hpm].
  unfold potential_matches. rewrite Hpm. simpl.
  assert (Hok : Forall (cand_ok first_list second_list offset max_difference)
                  (py_sort pm)).
  { rewrite py_sort_perm. by apply potential_matches_ok. }
  destruct (scan_returns kind _ _ _ _ _ _
              (scan_inv_init first_list second_list offset max_difference) Hok)
    as [st Hst].
  rewrite Hst. simpl.
  destruct (missing_from_returns first_list 0 (first_flag st)) as [miss ->].
  { assert (Hinv : scan_inv first_list second_list offset max_difference st).
    { eapply scan_inv_preserved; [apply scan_inv_init|exact Hok|exact Hst]. }
    rewrite (inv_len_first _ _ _ _ _ Hinv). simpl. lia. }
  simpl. unfold is_ok; eauto.
Qed.

End AssociatorFacts.

(** ** Claims about the associator *)

Section AssociatorClaims.
Context `{PyBuiltins}.
Implicit Types (first_list second_list : list row) (offset max_difference : float).

(** C2. The map returned by [associate] is injective in both directions: a
    primary index is a key at most once, and no two keys hold the same
    secondary index (the first component of the stored tuple). Every key is
    an index of the primary sequence and every stored first component is an
    index of the secondary sequence. *)
Theorem associate_injective kind first_list second_list offset max_difference m n :
  associate kind first_list second_list offset max_difference = Ok (m, n) →
  NoDup (map_to_list m).*1 ∧
  (∀ k1 k2 e1 e2,
     m !! k1 = Some e1 → m !! k2 = Some e2 → head e1 = head e2 → k1 = k2) ∧
  (∀ k e, m !! k = Some e →
     ∃ ia ib, k = Z.of_nat ia ∧ head e = Some (PInt (Z.of_nat ib)) ∧
              ia < length first_list ∧ ib < length second_list).
Proof.
  intros Ha. apply associate_inv in Ha as (st & miss & Hrun & -> & _).
  apply associate_run_inv in Hrun as [Hinv _]. split_and!.
  - apply NoDup_fst_map_to_list.
  - apply (inv_inj _ _ _ _ _ Hinv).
  - intros k e He.
    apply (inv_entry _ _ _ _ _ Hinv) in He
      as (ia & ib & d & rest & -> & -> & _ & _ & a & b & Ha & Hb & _).
    exists ia, ib. simpl in *. split_and!; [done|done| |]; by eapply lookup_lt_Some.
Qed.

(** C3. Every entry of the map returned by [associate] pairs a primary record
    [a] with a secondary record [b] and stores, as its second component, the
    number [abs(ta - (tb + offset))], where [ta = float(a[0])] is the primary
    timestamp and [tb = float(b[0])] the secondary one: the absolute
    difference between the primary timestamp and the offset-shifted
    secondary timestamp, in binary64 arithmetic. That number is strictly
    below [max_difference]. *)
Theorem associate_below_threshold kind first_list second_list offset max_difference m n :
  associate kind first_list second_list offset max_difference = Ok (m, n) →
  ∀ k e, m !! k = Some e →
    ∃ ia ib d rest a b va vb ta tb,
      k = Z.of_nat ia ∧ e = PInt (Z.of_nat ib) :: PFloat d :: rest ∧
      first_list !! ia = Some a ∧ second_list !! ib = Some b ∧
      head a = Some va ∧ py_float va = Ok ta ∧
      head b = Some vb ∧ py_float vb = Ok tb ∧
      d = abs (ta - (tb + offset))%float ∧
      (abs (ta - (tb + offset)) <? max_difference)%float = true.
Proof.
  intros Ha k e He. apply associate_inv in Ha as (st & miss & Hrun & -> & _).
  apply associate_run_inv in Hrun as [Hinv _].
  apply (inv_entry _ _ _ _ _ Hinv) in He
    as (ia & ib & d & rest & -> & -> & _ & _ & a & b & Ha & Hb & Hd & Hlt).
  simpl in Ha, Hb, Hd, Hlt.
  apply stamp_diff_inv in Hd as (va & vb & ta & tb & Hva & Hta & Hvb & Htb & ->).
  exists ia, ib, (abs (ta - (tb + offset)))%float, rest, a, b, va, vb, ta, tb.
  done.
Qed.

(** C10. The number of missing associations that [associate] computes is the
    length of the primary sequence minus the number of keys of the returned
    map: the list [missing_associations] holds each primary index that is not
    a key exactly once and no other index, and the count is zero exactly when
    every primary index is a key. *)
Theorem associate_missing_count kind first_list second_list offset max_difference m n :
  associate kind first_list second_list offset max_difference = Ok (m, n) →
  n + size m = length first_list ∧
  (n = 0 ↔ ∀ ia, ia < length first_list → is_Some (m !! Z.of_nat ia)) ∧
  (reports_missing n = false ↔
     ∀ ia, ia < length first_list → is_Some (m !! Z.of_nat ia)) ∧
  ∃ st miss,
    associate_run kind first_list second_list offset max_difference = Ok (st, miss) ∧
    m = matches st ∧ n = length miss ∧ NoDup miss.*1 ∧
    ∀ ia, ia < length first_list → (ia ∈ miss.*1 ↔ m !! Z.of_nat ia = None).
Proof.
  intros Ha. apply associate_inv in Ha as (st & miss & Hrun & -> & ->).
  pose proof Hrun as Hrun'.
  apply associate_run_inv in Hrun' as [Hinv Hmiss].
  apply missing_from_spec in Hmiss as (Hlen & Hnd & Hin).
  rewrite drop_0, take_ge in Hlen
    by (by rewrite (inv_len_first _ _ _ _ _ Hinv)).
  assert (Hflag : ∀ ia, ia < length first_list →
            (first_flag st !! ia = Some false ↔ matches st !! Z.of_nat ia = None)).
  { intros ia Hia. split.
    - intros Hf. destruct (matches st !! Z.of_nat ia) as [e|] eqn:He; [|done].
      apply (inv_entry _ _ _ _ _ Hinv) in He as (ia' & ? & ? & ? & Hk & _ & Hf' & _).
      apply Nat2Z.inj in Hk as <-. congruence.
    - intros Hnone. destruct (lookup_lt_is_Some_2 (first_flag st) ia) as [f Hf].
      { by rewrite (inv_len_first _ _ _ _ _ Hinv). }
      destruct f; [|done].
      apply (inv_claimed _ _ _ _ _ Hinv) in Hf as [e He]. congruence. }
  assert (Hmem : ∀ ia, ia < length first_list →
            (ia ∈ miss.*1 ↔ matches st !! Z.of_nat ia = None)).
  { intros ia Hia. rewrite Hin, <- (Hflag ia Hia). split; [by intros [_ ?]|].
    intros ?. split; [lia|done]. }
  assert (Hzero : length miss = 0 ↔
            ∀ ia, ia < length first_list → is_Some (matches st !! Z.of_nat ia)).
  { split.
    - intros Hz ia Hia. apply length_zero_iff_nil in Hz. subst miss.
      destruct (matches st !! Z.of_nat ia) eqn:He; [eauto|].
      apply (Hmem ia Hia) in He. by apply elem_of_nil in He.
    - intros Hall. destruct miss as [|[ia a] miss]; [done|]. exfalso.
      assert (Hia : ia ∈ ((ia, a) :: miss).*1) by (simpl; left).
      pose proof Hia as Hia'. apply Hin in Hia' as [[_ Hlt] _]. simpl in Hlt.
      apply (Hmem ia Hlt) in Hia. destruct (Hall ia Hlt) as [e He]. congruence. }
  split_and!.
  - rewrite Hlen. apply (inv_count _ _ _ _ _ Hinv).
  - done.
  - rewrite <- Hzero. unfold reports_missing.
    destruct (length miss); simpl; split; (done || lia).
  - exists st, miss. done.
Qed.

End AssociatorClaims.

Lemma associate_example :
  associate EurocAssoc ex_primary ex_secondary 0 0.1 = Ok (ex_matches, 1).
Proof. vm_compute. reflexivity. Qed.

(** ** The scale reconstructor *)

Section ReaderFacts.
Context `{PyBuiltins}.

Lemma position_fields gt ss x y z :
  position gt ss = Ok (x, y, z) →
  ∃ x0 y0 z0,
    x = (scale gt * x0)%float ∧ y = (scale gt * y0)%float ∧
    z = (scale gt * z0)%float ∧
    match gt with
    | Kitti _ _ _ => field ss 3 = Ok x0 ∧ field ss 7 = Ok y0 ∧ field ss 11 = Ok z0
    | _ => field ss 1 = Ok x0 ∧ field ss 2 = Ok y0 ∧ field ss 3 = Ok z0
    end.
Proof.
  unfold position. intros Hp.
  destruct gt; bind_inv; simplify_eq; eauto 10.
Qed.

(** The reconstruction returns as soon as the two records resolve and their
    fields parse, and its last component is the distance between the two
    scaled positions. *)
Lemma reconstruct_returns gt frame_id ss_prev ss t x_prev y_prev z_prev x y z :
  getDataLine gt (frame_id + start_frame_id gt - 1) = Ok ss_prev →
  getDataLine gt (frame_id + start_frame_id gt) = Ok ss →
  position gt ss_prev = Ok (x_prev, y_prev, z_prev) →
  position gt ss = Ok (x, y, z) →
  timestamp_of gt ss (frame_id + start_frame_id gt) = Ok t →
  getTimePoseAndAbsoluteScale gt frame_id
    = Ok (t, x, y, z, displacement x y z x_prev y_prev z_prev).
Proof.
  intros Hprev Hcur Hpp Hpc Ht.
  apply position_fields in Hpp as (xp0 & yp0 & zp0 & -> & -> & -> & Hfp).
  apply position_fields in Hpc as (x0 & y0 & z0 & -> & -> & -> & Hfc).
  destruct gt as [s|data s|data ts s|data m s|data m s];
    try (by simpl in Hprev);
    destruct Hfp as (Hxp & Hyp & Hzp); destruct Hfc as (Hx & Hy & Hz);
    unfold getTimePoseAndAbsoluteScale, reconstruct_xyz, reconstruct_kitti;
    unfold timestamp_of in Ht;
    rewrite Hprev; cbn [bind]; rewrite Hxp, Hyp, Hzp; cbn [bind];
    rewrite Hcur; cbn [bind]; rewrite ?Ht; cbn [bind];
    rewrite Hx, Hy, Hz; cbn [bind]; try done.
  apply bind_ok in Ht as (line & Hline & Ht). rewrite Hline. cbn [bind].
  by rewrite Ht.
Qed.

End ReaderFacts.

(** ** Claims about the end-to-end example of the associator *)

(** C4, as stated, fails: on the example the stored difference of the second
    pair is not the binary64 number [0.02]. *)
Lemma associate_example_not_rounded :
  ¬ ∃ n, associate EurocAssoc ex_primary ex_secondary 0 0.1
           = Ok (ex_matches_rounded, n).
Proof.
  intros [n Hn].
  apply (f_equal (λ r, match r with
                       | Ok (m, _) =>
                           match m !! 1%Z with
                           | Some [_; PFloat d] => (d =? 0.02)%float
                           | _ => false
                           end
                       | Raise _ => false
                       end)) in Hn.
  vm_compute in Hn. discriminate Hn.
Qed.

(** C4, amended. On primary timestamps [0.0, 1.0, 2.1], secondary timestamps
    [0.05, 1.02, 5.0], offset 0 and threshold 0.1, whatever the built-ins,
    [associate] returns the map [{0: (0, 0.05), 1: (1, d)}] where [d] is the
    binary64 value of [abs(1.0 - (1.02 + 0))], that is
    0.020000000000000018, which is within 1e-16 of 0.02; primary index 2 is
    not a key, and the count of missing associations is 1 and is reported. *)
Theorem associate_example_exact `{PyBuiltins} :
  associate EurocAssoc ex_primary ex_secondary 0 0.1 = Ok (ex_matches, 1) ∧
  ex_matches !! 0%Z = Some [PInt 0; PFloat 0.05] ∧
  ex_matches !! 1%Z = Some [PInt 1; PFloat (abs (1.0 - (1.02 + 0)))] ∧
  ex_matches !! 2%Z = None ∧
  dom ex_matches = {[0%Z; 1%Z]} ∧
  reports_missing 1 = true ∧
  (abs (abs (1.0 - (1.02 + 0)) - 0.02) <? 1e-16)%float = true.
Proof.
  split_and!; vm_compute; reflexivity.
Qed.

(** ** Witnesses for the claims about the associator *)

Lemma associate_injective_witness :
  associate EurocAssoc ex_primary ex_secondary 0 0.1 = Ok (ex_matches, 1) ∧
  NoDup (map_to_list ex_matches).*1 ∧
  (∀ k1 k2 e1 e2,
     ex_matches !! k1 = Some e1 → ex_matches !! k2 = Some e2 →
     head e1 = head e2 → k1 = k2) ∧
  (∀ k e, ex_matches !! k = Some e →
     ∃ ia ib, k = Z.of_nat ia ∧ head e = Some (PInt (Z.of_nat ib)) ∧
              ia < length ex_primary ∧ ib < length ex_secondary).
Proof.
  assert (Hrun : associate EurocAssoc ex_primary ex_secondary 0 0.1
                   = Ok (ex_matches, 1)) by (vm_compute; reflexivity).
  split; [exact Hrun|].
  exact (associate_injective EurocAssoc ex_primary ex_secondary 0 0.1
           ex_matches 1 Hrun).
Defined.

Lemma associate_below_threshold_witness :
  associate EurocAssoc ex_primary ex_secondary 0.5 0.6 = Ok (ex_matches_shifted, 1) ∧
  ∀ k e, ex_matches_shifted !! k = Some e →
    ∃ ia ib d rest a b va vb ta tb,
      k = Z.of_nat ia ∧ e = PInt (Z.of_nat ib) :: PFloat d :: rest ∧
      ex_primary !! ia = Some a ∧ ex_secondary !! ib = Some b ∧
      head a = Some va ∧ py_float va = Ok ta ∧
      head b = Some vb ∧ py_float vb = Ok tb ∧
      d = abs (ta - (tb + 0.5))%float ∧
      (abs (ta - (tb + 0.5)) <? 0.6)%float = true.
Proof.
  assert (Hrun : associate EurocAssoc ex_primary ex_secondary 0.5 0.6
                   = Ok (ex_matches_shifted, 1)) by (vm_compute; reflexivity).
  split; [exact Hrun|].
  exact (associate_below_threshold EurocAssoc ex_primary ex_secondary 0.5 0.6
           ex_matches_shifted 1 Hrun).
Defined.

Lemma associate_missing_count_witness :
  associate EurocAssoc ex_primary ex_secondary 0 0.1 = Ok (ex_matches, 1) ∧
  1 + size ex_matches = length ex_primary.
Proof.
  assert (Hrun : associate EurocAssoc ex_primary ex_secondary 0 0.1
                   = Ok (ex_matches, 1)) by (vm_compute; reflexivity).
  split; [exact Hrun|].
  exact (proj1 (associate_missing_count EurocAssoc ex_primary ex_secondary 0 0.1
                  ex_matches 1 Hrun)).
Defined.

(** ** Claims about the frame accessor and the scale reconstructor *)

(** The maps that [associate] builds have no negative key. *)
Lemma associate_no_negative_key `{PyBuiltins} kind first_list second_list
    offset max_difference m n k :
  associate kind first_list second_list offset max_difference = Ok (m, n) →
  (k < 0)%Z → m !! k = None.
Proof.
  intros Ha Hk. destruct (m !! k) as [e|] eqn:He; [|done].
  apply associate_inv in Ha as (st & miss & Hrun & -> & _).
  apply associate_run_inv in Hrun as [Hinv _].
  apply (inv_entry _ _ _ _ _ Hinv) in He as (ia & ? & ? & ? & -> & _). lia.
Qed.

Section ReaderClaims.
Context `{PyBuiltins}.

Lemma displacement_norm3 x y z x_prev y_prev z_prev :
  displacement x y z x_prev y_prev z_prev
    = norm3 (x - x_prev) (y - y_prev) (z - z_prev).
Proof. reflexivity. Qed.

(** C5. When the current and the preceding record resolve and their fields
    parse, [getTimePoseAndAbsoluteScale] returns the timestamp and the scaled
    position of the current record, and [abs_scale] is the Euclidean norm of
    the difference between the scaled current and preceding positions. It is
    the displacement of one frame, not a path length: when the next record is
    one more equal step away, the call for the next frame returns the same
    [abs_scale], the length of the common step. *)
Theorem abs_scale_is_displacement gt frame_id ss_prev ss ss_next
    t t' x_prev y_prev z_prev x y z x' y' z' :
  getDataLine gt (frame_id + start_frame_id gt - 1) = Ok ss_prev →
  getDataLine gt (frame_id + start_frame_id gt) = Ok ss →
  position gt ss_prev = Ok (x_prev, y_prev, z_prev) →
  position gt ss = Ok (x, y, z) →
  timestamp_of gt ss (frame_id + start_frame_id gt) = Ok t →
  getTimePoseAndAbsoluteScale gt frame_id
    = Ok (t, x, y, z, norm3 (x - x_prev) (y - y_prev) (z - z_prev)) ∧
  (getDataLine gt (frame_id + 1 + start_frame_id gt) = Ok ss_next →
   position gt ss_next = Ok (x', y', z') →
   timestamp_of gt ss_next (frame_id + 1 + start_frame_id gt) = Ok t' →
   (x' - x)%float = (x - x_prev)%float →
   (y' - y)%float = (y - y_prev)%float →
   (z' - z)%float = (z - z_prev)%float →
   getTimePoseAndAbsoluteScale gt (frame_id + 1)
     = Ok (t', x', y', z', norm3 (x - x_prev) (y - y_prev) (z - z_prev))).
Proof.
  intros Hprev Hcur Hpp Hpc Ht. split.
  - rewrite <- displacement_norm3. by eapply reconstruct_returns.
  - intros Hnext Hpn Ht' <- <- <-. rewrite <- displacement_norm3.
    eapply reconstruct_returns; [|exact Hnext|exact Hpc|exact Hpn|exact Ht'].
    by replace (frame_id + 1 + start_frame_id gt - 1)%Z
      with (frame_id + start_frame_id gt)%Z by lia.
Qed.

(** The simple reader adds the start offset in [getTimePoseAndAbsoluteScale]
    and once more in the inherited [getDataLine]: a call with offset [s]
    reads the records that a call without offset reads for the frame
    [frame_id + 2 * s]. *)
Lemma simple_offset_twice data s frame_id :
  getTimePoseAndAbsoluteScale (Simple data s) frame_id
    = getTimePoseAndAbsoluteScale (Simple data 0) (frame_id + 2 * s).
Proof.
  simpl. unfold reconstruct_xyz. simpl.
  replace (frame_id + s - 1 + s)%Z with (frame_id + 2 * s + 0 - 1 + 0)%Z by lia.
  by replace (frame_id + s + s)%Z with (frame_id + 2 * s + 0 + 0)%Z by lia.
Qed.

(** The TUM and EuRoC readers override [getDataLine] without the offset:
    they add it once. *)
Lemma associated_offset_once data m s frame_id :
  getTimePoseAndAbsoluteScale (Tum data m s) frame_id
    = getTimePoseAndAbsoluteScale (Tum data m 0) (frame_id + s) ∧
  getTimePoseAndAbsoluteScale (Euroc data m s) frame_id
    = getTimePoseAndAbsoluteScale (Euroc data m 0) (frame_id + s).
Proof.
  split; simpl; unfold reconstruct_xyz; simpl;
    by replace (frame_id + s + 0)%Z with (frame_id + s)%Z by lia.
Qed.

(** Index [-1] of a non-empty list of lines is its last line. *)
Lemma getitem_last {A} (l : list A) (x : A) : py_getitem (l ++ [x]) (-1) = Ok x.
Proof.
  unfold py_getitem. cbv zeta. change (-1 <? 0)%Z with true. cbv iota.
  rewrite length_app. simpl.
  replace (-1 + Z.of_nat (length l + 1))%Z with (Z.of_nat (length l)) by lia.
  assert (Hneg : (Z.of_nat (length l) <? 0)%Z = false) by (apply Z.ltb_ge; lia).
  assert (Hlt : (Z.of_nat (length l + 1) <=? Z.of_nat (length l))%Z = false)
    by (apply Z.leb_gt; lia).
  rewrite Hneg, Hlt, Nat2Z.id. simpl.
  by rewrite lookup_app_r, Nat.sub_diag by lia.
Qed.

(** C8, amended. For frame 0 with start offset 0 the reconstructor resolves
    the predecessor index [-1]. The simple and KITTI readers index the list
    of lines, where [-1] is the last line of a non-empty file: whenever the
    fields of the first and of the last line parse (and, for KITTI, the
    first line of the timestamp file), the call returns the timestamp and
    position of the first record with the distance to the last record as
    [abs_scale]; on an empty file it raises an index error. The TUM and
    EuRoC readers look the index up in the association map: the call raises
    a key error whenever the map has no key [-1], which is the case of every
    map built by [associate]. *)
Theorem first_sample_predecessor kitti tum data data_timestamps line rows m
    kind first_list second_list offset max_difference m' n ss t x y z
    x_last y_last z_last :
  getDataLine (line_reader kitti (data ++ [line]) data_timestamps 0) (0 + 0 - 1)
    = Ok (PStr <$> strip_split line) ∧
  (getDataLine (line_reader kitti (data ++ [line]) data_timestamps 0) 0 = Ok ss →
   position (line_reader kitti (data ++ [line]) data_timestamps 0)
     (PStr <$> strip_split line) = Ok (x_last, y_last, z_last) →
   position (line_reader kitti (data ++ [line]) data_timestamps 0) ss
     = Ok (x, y, z) →
   timestamp_of (line_reader kitti (data ++ [line]) data_timestamps 0) ss 0
     = Ok t →
   getTimePoseAndAbsoluteScale
       (line_reader kitti (data ++ [line]) data_timestamps 0) 0
     = Ok (t, x, y, z, displacement x y z x_last y_last z_last)) ∧
  getTimePoseAndAbsoluteScale (line_reader kitti [] data_timestamps 0) 0
    = Raise IndexError ∧
  (m !! (-1)%Z = None →
   getTimePoseAndAbsoluteScale (associated_reader tum rows m 0) 0
     = Raise KeyError) ∧
  (associate kind first_list second_list offset max_difference = Ok (m', n) →
   m' !! (-1)%Z = None ∧
   getTimePoseAndAbsoluteScale (associated_reader tum rows m' 0) 0
     = Raise KeyError).
Proof.
  assert (Hkey : ∀ m0 : gmap Z row, m0 !! (-1)%Z = None →
            getTimePoseAndAbsoluteScale (associated_reader tum rows m0 0) 0
              = Raise KeyError).
  { intros m0 Hm0.
    destruct tum; unfold associated_reader, getTimePoseAndAbsoluteScale,
      reconstruct_xyz, getDataLine, associated_line, dict_get, start_frame_id;
      change (0 + 0 - 1)%Z with (-1)%Z; by rewrite Hm0. }
  split_and!.
  - destruct kitti; simpl; by rewrite getitem_last.
  - intros Hcur Hpl Hpc Ht.
    apply (reconstruct_returns _ 0 (PStr <$> strip_split line) ss); try done;
      destruct kitti; first [done | simpl; by rewrite getitem_last].
  - by destruct kitti.
  - apply Hkey.
  - intros Ha.
    assert (Hnone : m' !! (-1)%Z = None)
      by (eapply associate_no_negative_key; [exact Ha|lia]).
    split; [exact Hnone|by apply Hkey].
Qed.

End ReaderClaims.

Lemma abs_scale_is_displacement_witness :
  norm3 (1 - 0) (2 - 0) (2 - 0) = 3%float ∧
  getTimePoseAndAbsoluteScale (Simple ex_lines 0) 1
    = Ok (1, 1, 2, 2, norm3 (1 - 0) (2 - 0) (2 - 0))%float ∧
  getTimePoseAndAbsoluteScale (Simple ex_lines 0) (1 + 1)
    = Ok (2, 2, 4, 4, norm3 (1 - 0) (2 - 0) (2 - 0))%float.
Proof.
  destruct (abs_scale_is_displacement (Simple ex_lines 0) 1
              [PStr "0.0"; PStr "0.0"; PStr "0.0"; PStr "0.0"]
              [PStr "1.0"; PStr "1.0"; PStr "2.0"; PStr "2.0"]
              [PStr "2.0"; PStr "2.0"; PStr "4.0"; PStr "4.0"]
              1 2 0 0 0 1 2 2 2 4 4)%float as [Hcur Hnext];
    try (vm_compute; reflexivity).
  split_and!.
  - vm_compute. reflexivity.
  - exact Hcur.
  - apply Hnext; vm_compute; reflexivity.
Defined.

(** C1 fails on the simple and KITTI readers. With start offset 1, frame 1
    of the simple file is reconstructed from the record at index 3 (and its
    predecessor at index 2), not from the record at index 1 + 1; on the KITTI
    files the same call pairs the position of record 3 with the timestamp of
    line 2. *)
Theorem offset_applied_twice_example :
  getTimePoseAndAbsoluteScale (Simple ex_lines 1) 1 = Ok (3, 3, 6, 6, 3)%float ∧
  ex_lines !! 3 = Some (ln "3.0 3.0 6.0 6.0") ∧
  ex_lines !! (1 + 1) = Some (ln "2.0 2.0 4.0 4.0") ∧
  getTimePoseAndAbsoluteScale (Kitti ex_poses ex_times 1) 1
    = Ok (2, 3, 6, 6, 3)%float ∧
  ex_times !! (1 + 1) = Some (ln "2.0") ∧
  ex_poses !! 3 = Some (ln "1.0 0.0 0.0 3.0 0.0 1.0 0.0 6.0 0.0 0.0 1.0 6.0").
Proof. split_and!; vm_compute; reflexivity. Qed.

(** C8, as stated, fails: on the simple reader the call for frame 0 returns,
    with the distance between the first and the last record as scale. *)
Lemma first_sample_returns_example :
  getTimePoseAndAbsoluteScale (Simple ex_lines 0) 0 = Ok (0, 0, 0, 0, 12)%float ∧
  ¬ ∃ e, getTimePoseAndAbsoluteScale (Simple ex_lines 0) 0 = Raise e.
Proof.
  assert (Hrun : getTimePoseAndAbsoluteScale (Simple ex_lines 0) 0
                   = Ok (0, 0, 0, 0, 12)%float) by (vm_compute; reflexivity).
  split; [exact Hrun|]. intros [e He]. rewrite Hrun in He. discriminate He.
Qed.

Lemma first_sample_predecessor_witness :
  getTimePoseAndAbsoluteScale (Simple ex_lines 0) 0
    = Ok (0, 0, 0, 0, displacement 0 0 0 4 8 8)%float ∧
  getTimePoseAndAbsoluteScale (Kitti ex_poses ex_times 0) 0
    = Ok (0, 0, 0, 0, displacement 0 0 0 4 8 8)%float ∧
  getTimePoseAndAbsoluteScale (Tum [] ex_matches 0) 0 = Raise KeyError ∧
  associate EurocAssoc ex_images ex_rows 0 0.5 = Ok (ex_assoc, 0) ∧
  getTimePoseAndAbsoluteScale (Euroc ex_rows ex_assoc 0) 0 = Raise KeyError.
Proof.
  assert (Hrun : associate EurocAssoc ex_images ex_rows 0 0.5 = Ok (ex_assoc, 0))
    by (vm_compute; reflexivity).
  destruct (first_sample_predecessor false true (take 4 ex_lines) []
              (ln "4.0 4.0 8.0 8.0") [] ex_matches
              EurocAssoc ex_images ex_rows 0 0.5 ex_assoc 0
              [PStr "0.0"; PStr "0.0"; PStr "0.0"; PStr "0.0"]
              0 0 0 0 4 8 8)%float
    as (_ & Hsimple & _ & Htum & _).
  destruct (first_sample_predecessor true false (take 4 ex_poses) ex_times
              (ln "1.0 0.0 0.0 4.0 0.0 1.0 0.0 8.0 0.0 0.0 1.0 8.0") ex_rows ∅
              EurocAssoc ex_images ex_rows 0 0.5 ex_assoc 0
              ((λ w, PStr w) <$> words (ln "1.0 0.0 0.0 0.0 0.0 1.0 0.0 0.0 0.0 0.0 1.0 0.0") "")
              0 0 0 0 4 8 8)%float
    as (_ & Hkitti & _ & _ & Heuroc).
  split_and!.
  - apply Hsimple; vm_compute; reflexivity.
  - apply Hkitti; vm_compute; reflexivity.
  - apply Htum. vm_compute. reflexivity.
  - exact Hrun.
  - exact (proj2 (Heuroc Hrun)).
Defined.

(** ** Claims about the trajectory extractor *)

Section TrajectoryFacts.
Context `{PyBuiltins}.

Lemma trajectory_loop_spec gt iis trajectory timestamps :
  trajectory_loop gt iis trajectory timestamps
    = (trajectory ++ ((point_of ∘ snd) <$> reconstructed gt iis),
       timestamps ++ ((time_of ∘ snd) <$> reconstructed gt iis)).
Proof.
  revert trajectory timestamps.
  induction iis as [|ii iis IH]; intros trajectory timestamps; simpl.
  - by rewrite !app_nil_r.
  - unfold reconstructed, attempt. simpl. fold (attempt gt).
    destruct (getTimePoseAndAbsoluteScale gt ii) as [[[[[t x] y] z] sc]|e]; simpl.
    + rewrite IH. unfold reconstructed. by rewrite <- !app_assoc.
    + apply IH.
Qed.

Lemma reconstructed_indices gt iis :
  (reconstructed gt iis).*1 = filter (λ ii, returns_at gt ii) iis.
Proof.
  induction iis as [|ii iis IH]; [done|].
  unfold reconstructed in *. cbn [omap list_omap].
  destruct (getTimePoseAndAbsoluteScale gt ii) as [smp|e] eqn:Hs.
  - rewrite filter_cons_True by (unfold returns_at; by rewrite Hs).
    unfold attempt at 1. rewrite Hs. rewrite fmap_cons. by f_equal.
  - rewrite filter_cons_False by (unfold returns_at; rewrite Hs; simpl; tauto).
    unfold attempt at 1. rewrite Hs. exact IH.
Qed.

Lemma reconstructed_samples gt iis ii smp :
  (ii, smp) ∈ reconstructed gt iis →
  ii ∈ iis ∧ getTimePoseAndAbsoluteScale gt ii = Ok smp.
Proof.
  unfold reconstructed. rewrite list_elem_of_omap.
  intros (ii' & Hin & Ha). unfold attempt in Ha.
  destruct (getTimePoseAndAbsoluteScale gt ii') as [smp'|e] eqn:Hs; [|done].
  injection Ha as <- <-. done.
Qed.

(** [range(1, n - 1)] is 1, 2, ..., n - 2. *)
Lemma py_range_inner (n : nat) :
  py_range 1 (Z.of_nat n - 1) = (λ i, Z.of_nat (1 + i)) <$> seq 0 (n - 2).
Proof.
  unfold py_range.
  replace (Z.to_nat (Z.of_nat n - 1 - 1)) with (n - 2) by lia.
  apply list_fmap_ext. intros _ i _. lia.
Qed.

(** Reconstruction through an association map from which [k] was removed. *)
Lemma associated_line_delete data m k j :
  associated_line data (delete k m) j
    = if decide (j = k) then Raise KeyError else associated_line data m j.
Proof.
  unfold associated_line, dict_get. rewrite lookup_delete.
  destruct (decide (k = j)) as [->|Hne]; [by rewrite decide_True|].
  by rewrite decide_False by done.
Qed.

Lemma reconstruct_xyz_raises gt frame_id e :
  getDataLine gt (frame_id + start_frame_id gt - 1) = Raise e ∨
  getDataLine gt (frame_id + start_frame_id gt) = Raise e →
  ∃ e', reconstruct_xyz gt frame_id = Raise e'.
Proof.
  unfold reconstruct_xyz. intros [Hp|Hc].
  - rewrite Hp. simpl. eauto.
  - rewrite Hc.
    repeat match goal with
    | |- ∃ e', bind ?m _ = Raise e' => destruct m; simpl; eauto
    end.
Qed.

Lemma attempt_delete tum data m s k ii :
  attempt (associated_reader tum data (delete k m) s) ii
    = if decide ((ii + s)%Z ≠ k ∧ (ii + s - 1)%Z ≠ k)
      then attempt (associated_reader tum data m s) ii
      else None.
Proof.
  unfold attempt.
  assert (Hcall : ∀ m', getTimePoseAndAbsoluteScale (associated_reader tum data m' s) ii
                        = reconstruct_xyz (associated_reader tum data m' s) ii)
    by (by destruct tum).
  assert (Hline : ∀ m' j, getDataLine (associated_reader tum data m' s) j
                          = associated_line data m' j)
    by (by destruct tum).
  assert (Hstart : ∀ m', start_frame_id (associated_reader tum data m' s) = s)
    by (by destruct tum).
  assert (Hscale : ∀ m', scale (associated_reader tum data m' s)
                         = scale (associated_reader tum data m s))
    by (by destruct tum).
  rewrite !Hcall. case_decide as Hk.
  - destruct Hk as [Hk1 Hk2]. unfold reconstruct_xyz.
    rewrite !Hline, !Hstart, !Hscale, !associated_line_delete.
    by rewrite !decide_False by done.
  - destruct (reconstruct_xyz_raises (associated_reader tum data (delete k m) s)
                ii KeyError) as [e' ->]; [|done].
    rewrite !Hline, !Hstart, !associated_line_delete.
    destruct (decide ((ii + s - 1)%Z = k)); [by left|].
    destruct (decide ((ii + s)%Z = k)); [by right|]. tauto.
Qed.

Lemma attempt_index gt ii p : attempt gt ii = Some p → p.1 = ii.
Proof.
  unfold attempt. destruct (getTimePoseAndAbsoluteScale gt ii); [|done].
  by intros [= <-].
Qed.

Lemma reconstructed_delete tum data m s k iis :
  reconstructed (associated_reader tum data (delete k m) s) iis
    = filter (λ p, (p.1 + s)%Z ≠ k ∧ (p.1 + s - 1)%Z ≠ k)
        (reconstructed (associated_reader tum data m s) iis).
Proof.
  induction iis as [|ii iis IH]; [done|].
  unfold reconstructed in *. cbn [omap list_omap].
  rewrite attempt_delete. rewrite IH.
  destruct (attempt (associated_reader tum data m s) ii) as [p|] eqn:Ha.
  - apply attempt_index in Ha as <-. rewrite filter_cons. by case_decide.
  - by case_decide.
Qed.

(** C6, amended. For a dataset with [n] samples, [getFull3dTrajectory]
    attempts the frames 1 to n - 2, swallows every failure and always
    returns; the trajectory and the timestamps hold, in increasing frame
    order, the position (cast to binary32) and the timestamp returned for
    each frame whose reconstruction returned, so the two have equal length.
    On the TUM and EuRoC readers, removing the association of key [k] removes
    from the result exactly the frames that read [k] as their current or as
    their preceding index, which is up to two frames. *)
Theorem full_trajectory_spec gt n data m s k :
  len_data gt = Ok n →
  let frames := (λ i, Z.of_nat (1 + i)) <$> seq 0 (n - 2) in
  let done_ := reconstructed gt frames in
  getFull3dTrajectory gt
    = Ok (map (map to_float32) ((point_of ∘ snd) <$> done_), (time_of ∘ snd) <$> done_) ∧
  done_.*1 = filter (λ ii, returns_at gt ii) frames ∧
  (∀ ii smp, (ii, smp) ∈ done_ → getTimePoseAndAbsoluteScale gt ii = Ok smp) ∧
  length (map (map to_float32) ((point_of ∘ snd) <$> done_))
    = length ((time_of ∘ snd) <$> done_) ∧
  reconstructed (Tum data (delete k m) s) frames
    = filter (λ p, (p.1 + s)%Z ≠ k ∧ (p.1 + s - 1)%Z ≠ k)
        (reconstructed (Tum data m s) frames) ∧
  reconstructed (Euroc data (delete k m) s) frames
    = filter (λ p, (p.1 + s)%Z ≠ k ∧ (p.1 + s - 1)%Z ≠ k)
        (reconstructed (Euroc data m s) frames).
Proof.
  intros Hn frames done_. split_and!.
  - unfold getFull3dTrajectory. rewrite Hn. simpl.
    rewrite trajectory_loop_spec, py_range_inner. done.
  - apply reconstructed_indices.
  - intros ii smp Hin. by apply reconstructed_samples in Hin as [_ ?].
  - by rewrite length_map, !length_fmap.
  - apply (reconstructed_delete true).
  - apply (reconstructed_delete false).
Qed.

End TrajectoryFacts.

(** C6, as stated, fails: every association is present and the extraction
    returns the three inner frames; with the association of the middle key 2
    removed it returns one frame, two fewer. *)
Lemma removed_association_drops_two :
  associate EurocAssoc ex_images ex_rows 0 0.5 = Ok (ex_assoc, 0) ∧
  getFull3dTrajectory (Euroc ex_rows ex_assoc 0)
    = Ok ([[1; 2; 2]; [2; 4; 4]; [3; 6; 6]], [1; 2; 3])%float ∧
  getFull3dTrajectory (Euroc ex_rows (delete 2%Z ex_assoc) 0)
    = Ok ([[1; 2; 2]], [1])%float.
Proof. split_and!; vm_compute; reflexivity. Qed.

Lemma full_trajectory_spec_witness :
  getFull3dTrajectory (Euroc ex_rows (delete 2%Z ex_assoc) 0)
    = Ok ([[1; 2; 2]], [1])%float ∧
  reconstructed (Euroc ex_rows (delete 2%Z ex_assoc) 0) [1; 2; 3]%Z
    = filter (λ p, (p.1 + 0)%Z ≠ 2%Z ∧ (p.1 + 0 - 1)%Z ≠ 2%Z)
        (reconstructed (Euroc ex_rows ex_assoc 0) [1; 2; 3]%Z).
Proof.
  destruct (full_trajectory_spec (Euroc ex_rows (delete 2%Z ex_assoc) 0) 5
              ex_rows ex_assoc 0 2) as (Hrun & _ & _ & _ & _ & Hdel).
  - vm_compute. reflexivity.
  - split; [|exact Hdel]. rewrite Hrun. vm_compute. reflexivity.
Defined.

(** ** Claims about the export *)

Section ExportFacts.
Context `{PyBuiltins}.

Lemma export_loop_returns gt iis out :
  Forall (λ ii, is_ok (getTimePoseAndAbsoluteScale gt ii)) iis →
  ∃ lines,
    export_loop gt iis out = (out ++ lines, Ok ()) ∧
    Forall2 (λ ii line, ∃ smp, getTimePoseAndAbsoluteScale gt ii = Ok smp ∧
                               written_for ii smp line) iis lines.
Proof.
  intros Hall. revert out.
  induction Hall as [|ii iis [smp Hsmp] _ IH]; intros out; cbn [export_loop].
  - exists []. by rewrite app_nil_r.
  - rewrite Hsmp. destruct smp as [[[[t x] y] z] sc].
    destruct (IH (out ++ [format_line (t, x, y, z, if (ii =? 0)%Z then 1%float else sc)]))
      as (lines & Hrun & Hlines).
    eexists (_ :: lines). rewrite Hrun, <- app_assoc. split; [done|].
    constructor; [|done]. exists (t, x, y, z, sc). done.
Qed.

Lemma export_loop_raises gt before ii after out e :
  Forall (λ ii, is_ok (getTimePoseAndAbsoluteScale gt ii)) before →
  getTimePoseAndAbsoluteScale gt ii = Raise e →
  ∃ lines,
    export_loop gt (before ++ ii :: after) out = (out ++ lines, Raise e) ∧
    length lines = length before.
Proof.
  intros Hall Hii. revert out.
  induction Hall as [|ii' iis [smp Hsmp] _ IH]; intros out; cbn [export_loop app].
  - rewrite Hii. exists []. by rewrite app_nil_r.
  - rewrite Hsmp. destruct smp as [[[[t x] y] z] sc].
    destruct (IH (out ++ [format_line (t, x, y, z, if (ii' =? 0)%Z then 1%float else sc)]))
      as (lines & Hrun & Hlen).
    eexists (_ :: lines). rewrite Hrun, <- app_assoc. split; [done|].
    simpl. by rewrite Hlen.
Qed.

Lemma py_range_from_zero (n : nat) : py_range 0 (Z.of_nat n) = Z.of_nat <$> seq 0 n.
Proof.
  unfold py_range. rewrite Z.sub_0_r, Nat2Z.id.
  apply list_fmap_ext. intros _ i _. lia.
Qed.

End ExportFacts.

(** C9 fails on the TUM and EuRoC readers. On a EuRoC dataset of five
    records whose five images are all associated, [convertToSimpleXYZ] writes
    no line: the reconstruction of frame 0 looks up the key [-1] of the
    association map, and its key error leaves the method before the scale of
    the first sample is overridden. The simple reader over the same five
    records, where the index [-1] is the last line, exports the five lines,
    the first with scale 1. With start offset 1 the loop of the simple reader
    still runs over the five indices, each shifted twice, and an index error
    leaves the method after three lines. *)
Theorem export_raises_example :
  associate EurocAssoc ex_images ex_rows 0 0.5 = Ok (ex_assoc, 0) ∧
  len_data (Euroc ex_rows ex_assoc 0) = Ok 5 ∧
  getTimePoseAndAbsoluteScale (Euroc ex_rows ex_assoc 0) 0 = Raise KeyError ∧
  convertToSimpleXYZ (Euroc ex_rows ex_assoc 0) = ([], Raise KeyError) ∧
  convertToSimpleXYZ (Simple ex_lines 0)
    = ([ln "0.000000 0.000000 0.000000 0.000000 1.000000";
        ln "1.000000 1.000000 2.000000 2.000000 3.000000";
        ln "2.000000 2.000000 4.000000 4.000000 3.000000";
        ln "3.000000 3.000000 6.000000 6.000000 3.000000";
        ln "4.000000 4.000000 8.000000 8.000000 3.000000"], Ok ()) ∧
  len_data (Simple ex_lines 1) = Ok 5 ∧
  convertToSimpleXYZ (Simple ex_lines 1)
    = ([ln "2.000000 2.000000 4.000000 4.000000 1.000000";
        ln "3.000000 3.000000 6.000000 6.000000 3.000000";
        ln "4.000000 4.000000 8.000000 8.000000 3.000000"], Raise IndexError).
Proof. split_and!; vm_compute; reflexivity. Qed.

(** ** Claims about the association cache *)

(** *** Integer keys *)












Section CacheFacts.
Context `{JsonScalars}.







End CacheFacts.



(** * Further properties of the code *)

(** ** The associator: when it returns *)

Section AssociatorReturns.
Context `{PyBuiltins}.
Implicit Types (first_list second_list : list row) (offset max_difference : float).

Lemma stamp_diff_ok_inv offset a b d :
  stamp_diff offset a b = Ok d → is_ok (stamp a) ∧ is_ok (stamp b).
Proof. unfold stamp_diff. intros Hd. bind_inv. unfold is_ok. eauto. Qed.

Lemma candidates_row_ok_inv offset max_difference ia a bs ib cs :
  candidates_row offset max_difference ia a bs ib = Ok cs →
  Forall (λ b, is_ok (stamp b)) bs ∧ (bs ≠ [] → is_ok (stamp a)).
Proof.
  revert ib cs. induction bs as [|b bs IH]; intros ib cs Hc; simpl in Hc.
  - split; [constructor|done].
  - apply bind_ok in Hc as (d & Hd & Hc).
    destruct (stamp_diff_ok_inv _ _ _ _ Hd) as [Ha Hb].
    assert (Forall (λ b, is_ok (stamp b)) bs) as Hbs.
    { destruct (d <? max_difference)%float.
      - bind_inv. by eapply IH.
      - by eapply IH. }
    split; [by constructor|done].
Qed.

Lemma candidates_from_ok_inv offset max_difference as_ ia second_list cs :
  candidates_from offset max_difference as_ ia second_list = Ok cs →
  (as_ ≠ [] → Forall (λ b, is_ok (stamp b)) second_list) ∧
  (second_list ≠ [] → Forall (λ a, is_ok (stamp a)) as_).
Proof.
  revert ia cs. induction as_ as [|a as_ IH]; intros ia cs Hc; simpl in Hc.
  - split; [done|constructor].
  - bind_inv. apply candidates_row_ok_inv in Hm as [Hbs Ha].
    apply IH in Hm0 as [_ Has]. split; [done|].
    intros Hne. constructor; [by apply Ha|by apply Has].
Qed.

Lemma candidates_from_no_second offset max_difference as_ ia :
  candidates_from offset max_difference as_ ia [] = Ok [].
Proof.
  revert ia. induction as_ as [|a as_ IH]; intros ia; simpl; [done|].
  by rewrite IH.
Qed.

Lemma missing_from_all_false as_ ia n :
  ia + length as_ ≤ n →
  ∃ miss, missing_from as_ ia (replicate n false) = Ok miss ∧
          length miss = length as_.
Proof.
  revert ia. induction as_ as [|a as_ IH]; intros ia Hn; simpl in *.
  - eauto.
  - unfold list_get. rewrite lookup_replicate_2 by lia. simpl.
    destruct (IH (S ia)) as (miss & -> & Hlen); [lia|]. simpl.
    eexists. split; [done|]. simpl. by rewrite Hlen.
Qed.

Lemma associate_no_second kind first_list offset max_difference :
  associate kind first_list [] offset max_difference = Ok (∅, length first_list).
Proof.
  unfold associate, associate_run, potential_matches.
  rewrite candidates_from_no_second. simpl.
  destruct (missing_from_all_false first_list 0 (length first_list))
    as (miss & -> & Hlen); [lia|].
  simpl. by rewrite Hlen.
Qed.

(** X2. With an empty second list nothing is compared: [associate] returns
    the empty map and counts every primary record as missing, whatever the
    records hold. With an empty first list it returns the empty map and
    counts nothing, whatever the second list holds. *)
Theorem associate_empty kind first_list second_list offset max_difference :
  associate kind first_list [] offset max_difference = Ok (∅, length first_list) ∧
  associate kind [] second_list offset max_difference = Ok (∅, 0).
Proof.
  split; [apply associate_no_second|done].
Qed.

(** X1. [associate] returns exactly when one of the two lists is empty or
    the timestamp of every record of both lists can be read: it never
    raises on the flags or on the records it stores. *)
Theorem associate_returns_iff kind first_list second_list offset max_difference :
  is_ok (associate kind first_list second_list offset max_difference) ↔
  first_list = [] ∨ second_list = [] ∨
  (Forall (λ a, is_ok (stamp a)) first_list ∧
   Forall (λ b, is_ok (stamp b)) second_list).
Proof.
  split.
  - intros [[m n] Ha].
    destruct first_list as [|a as_]; [by left|].
    destruct second_list as [|b bs]; [by right; left|]. right. right.
    unfold associate in Ha. apply bind_ok in Ha as (r & Hrun & _).
    unfold associate_run in Hrun. apply bind_ok in Hrun as (pm & Hpm & _).
    apply candidates_from_ok_inv in Hpm as [Hb Ha]. split; [by apply Ha|by apply Hb].
  - intros [->|[->|[Ha Hb]]].
    + unfold is_ok. eauto.
    + rewrite associate_no_second. unfold is_ok. eauto.
    + unfold associate, associate_run.
      destruct (candidates_from_returns offset max_difference _ 0 _ Ha Hb)
        as [pm Hpm].
      unfold potential_matches. rewrite Hpm. simpl.
      assert (Hok : Forall (cand_ok first_list second_list offset max_difference)
                      (py_sort pm)).
      { rewrite py_sort_perm. by apply potential_matches_ok. }
      destruct (scan_returns kind _ _ _ _ _ _
                  (scan_inv_init first_list second_list offset max_difference) Hok)
        as [st Hst].
      rewrite Hst. simpl.
      assert (Hinv : scan_inv first_list second_list offset max_difference st).
      { eapply scan_inv_preserved; [apply scan_inv_init|exact Hok|exact Hst]. }
      destruct (missing_from_returns first_list 0 (first_flag st)) as [miss ->].
      { rewrite (inv_len_first _ _ _ _ _ Hinv). simpl. lia. }
      simpl. unfold is_ok; eauto.
Qed.

End AssociatorReturns.

(** ** The associator: what the greedy scan leaves unmatched *)

Section AssociatorMaximal.
Context `{PyBuiltins}.
Implicit Types (first_list second_list : list row) (offset max_difference : float).

(** Every pair below the threshold is a candidate. *)
Lemma candidates_row_complete offset max_difference ia a bs ib cs j b d :
  candidates_row offset max_difference ia a bs ib = Ok cs →
  bs !! j = Some b → stamp_diff offset a b = Ok d →
  (d <? max_difference)%float = true →
  (d, ia, ib + j) ∈ cs.
Proof.
  revert ib cs j. induction bs as [|b0 bs IH]; intros ib cs j Hc Hb Hd Hlt; [done|].
  simpl in Hc. apply bind_ok in Hc as (d0 & Hd0 & Hc).
  destruct j as [|j]; simpl in Hb.
  - injection Hb as ->. rewrite Hd in Hd0. injection Hd0 as <-.
    rewrite Hlt in Hc. bind_inv. subst cs. rewrite Hd in Hm. injection Hm as <-.
    rewrite Nat.add_0_r. by left.
  - replace (ib + S j) with (S ib + j) by lia.
    destruct (d0 <? max_difference)%float.
    + bind_inv. subst cs. right. by eapply IH.
    + by eapply IH.
Qed.

Lemma candidates_from_complete offset max_difference as_ ia second_list cs i j a b d :
  candidates_from offset max_difference as_ ia second_list = Ok cs →
  as_ !! i = Some a → second_list !! j = Some b →
  stamp_diff offset a b = Ok d → (d <? max_difference)%float = true →
  (d, ia + i, j) ∈ cs.
Proof.
  revert ia cs i. induction as_ as [|a0 as_ IH]; intros ia cs i Hc Ha Hb Hd Hlt; [done|].
  simpl in Hc. bind_inv. subst cs. apply elem_of_app.
  destruct i as [|i]; simpl in Ha.
  - injection Ha as ->. left. rewrite Nat.add_0_r.
    by apply (candidates_row_complete _ _ _ _ _ 0 _ j b d Hm).
  - right. replace (ia + S i) with (S ia + i) by lia. by eapply IH.
Qed.

Lemma potential_matches_complete first_list second_list offset max_difference
    cs ia ib a b d :
  potential_matches first_list second_list offset max_difference = Ok cs →
  first_list !! ia = Some a → second_list !! ib = Some b →
  stamp_diff offset a b = Ok d → (d <? max_difference)%float = true →
  (d, ia, ib) ∈ cs.
Proof.
  intros Hc Ha Hb Hd Hlt.
  by apply (candidates_from_complete _ _ _ 0 _ _ ia ib a b d Hc).
Qed.

(** The flags only ever go from [False] to [True]. *)
Lemma scan_step_served kind first_list second_list st c st' :
  scan_step kind first_list second_list st c = Ok st' →
  served st' c ∧ ∀ c0, served st c0 → served st' c0.
Proof.
  destruct c as [[d ia] ib]. unfold scan_step, served. intros Hstep. simpl.
  apply bind_ok in Hstep as (fa & Hfa & Hstep). apply list_get_ok in Hfa.
  destruct fa; [injection Hstep as <-; by split; [left|]|].
  apply bind_ok in Hstep as (fb & Hfb & Hstep). apply list_get_ok in Hfb.
  destruct fb; [injection Hstep as <-; by split; [right|]|].
  apply bind_ok in Hstep as (e & He & Hstep). injection Hstep as <-. simpl.
  split.
  - left. apply list_lookup_insert_eq. by eapply lookup_lt_Some.
  - intros c0 [Hc0|Hc0]; [left|right]; by apply claim_keeps_true.
Qed.

Lemma scan_served kind first_list second_list cs st st' :
  scan kind first_list second_list cs st = Ok st' →
  Forall (served st') cs ∧ ∀ c0, served st c0 → served st' c0.
Proof.
  revert st. induction cs as [|c cs IH]; intros st Hscan; simpl in Hscan.
  - injection Hscan as <-. by split; [constructor|].
  - apply bind_ok in Hscan as (st1 & Hstep & Hscan).
    apply scan_step_served in Hstep as [Hc Hmono].
    apply IH in Hscan as [Hcs Hmono']. split; [|by auto].
    constructor; [by apply Hmono'|done].
Qed.

Lemma scan_inv_second_init second_list n :
  scan_inv_second second_list
    (ScanState ∅ (replicate n false) (replicate (length second_list) false)).
Proof.
  split; simpl.
  - intros ib Hib. apply lookup_replicate in Hib as [[=] _].
  - by rewrite count_false_replicate, map_size_empty.
Qed.

Lemma scan_step_inv_second kind first_list second_list offset max_difference st c st' :
  scan_inv first_list second_list offset max_difference st →
  scan_inv_second second_list st →
  scan_step kind first_list second_list st c = Ok st' →
  scan_inv_second second_list st'.
Proof.
  intros Hinv Hsec Hstep. destruct c as [[d ia] ib]. unfold scan_step in Hstep.
  apply bind_ok in Hstep as (fa & Hfa & Hstep). apply list_get_ok in Hfa.
  destruct fa; [by injection Hstep as <-|].
  apply bind_ok in Hstep as (fb & Hfb & Hstep). apply list_get_ok in Hfb.
  destruct fb; [by injection Hstep as <-|].
  apply bind_ok in Hstep as (e & He & Hstep). injection Hstep as <-.
  apply make_entry_shape in He as [rest ->].
  destruct Hsec as [Htaken Hcount].
  assert (Hfresh : matches st !! Z.of_nat ia = None).
  { destruct (matches st !! Z.of_nat ia) as [e'|] eqn:He'; [|done].
    apply (inv_entry _ _ _ _ _ Hinv) in He' as (ia' & ? & ? & ? & Hk & _ & Hflag & _).
    apply Nat2Z.inj in Hk as <-. congruence. }
  split; simpl.
  - intros ib'. destruct (decide (ib = ib')) as [<-|Hne].
    + intros _. exists (Z.of_nat ia), (PInt (Z.of_nat ib) :: PFloat d :: rest).
      by rewrite lookup_insert_eq.
    + rewrite list_lookup_insert_ne by done. intros Hib'.
      apply Htaken in Hib' as (k & e & Hk & Hhead). exists k, e.
      split; [|done]. rewrite lookup_insert_ne; [done|]. congruence.
  - rewrite map_size_insert_None by done.
    apply count_false_claim in Hfb. lia.
Qed.

Lemma scan_inv_second_preserved kind first_list second_list offset max_difference
    cs st st' :
  scan_inv first_list second_list offset max_difference st →
  scan_inv_second second_list st →
  Forall (cand_ok first_list second_list offset max_difference) cs →
  scan kind first_list second_list cs st = Ok st' →
  scan_inv_second second_list st'.
Proof.
  revert st. induction cs as [|c cs IH]; intros st Hinv Hsec Hcs Hscan; simpl in Hscan.
  - by injection Hscan as <-.
  - apply Forall_cons in Hcs as [Hc Hcs].
    apply bind_ok in Hscan as (st1 & Hstep & Hscan).
    eapply IH; [| |done|done].
    + by eapply scan_step_inv.
    + by eapply scan_step_inv_second.
Qed.

(** The pieces of a run of [associate]. *)
Lemma associate_run_pieces kind first_list second_list offset max_difference m n :
  associate kind first_list second_list offset max_difference = Ok (m, n) →
  ∃ pm st,
    potential_matches first_list second_list offset max_difference = Ok pm ∧
    Forall (cand_ok first_list second_list offset max_difference) (py_sort pm) ∧
    scan kind first_list second_list (py_sort pm)
      (ScanState ∅ (replicate (length first_list) false)
                   (replicate (length second_list) false)) = Ok st ∧
    scan_inv first_list second_list offset max_difference st ∧
    scan_inv_second second_list st ∧
    m = matches st.
Proof.
  unfold associate, associate_run. intros Ha.
  apply bind_ok in Ha as ([st miss] & Hrun & Ha). injection Ha as <- _.
  apply bind_ok in Hrun as (pm & Hpm & Hrun).
  apply bind_ok in Hrun as (st1 & Hscan & Hrun).
  apply bind_ok in Hrun as (miss1 & _ & Hrun). injection Hrun as -> _.
  assert (Hok : Forall (cand_ok first_list second_list offset max_difference)
                  (py_sort pm)).
  { rewrite py_sort_perm. by apply potential_matches_ok. }
  exists pm, st. split_and!; try done.
  - eapply scan_inv_preserved; [apply scan_inv_init|exact Hok|exact Hscan].
  - eapply scan_inv_second_preserved;
      [apply scan_inv_init|apply scan_inv_second_init|exact Hok|exact Hscan].
Qed.

(** X3. The map returned by [associate] is a maximal matching: for every
    pair of records whose shifted timestamp difference is below the
    threshold, the primary index is a key of the map or the secondary index
    is stored under some key. No pair below the threshold is left with both
    of its records unmatched. *)
Theorem associate_maximal kind first_list second_list offset max_difference
    m n ia ib a b d :
  associate kind first_list second_list offset max_difference = Ok (m, n) →
  first_list !! ia = Some a → second_list !! ib = Some b →
  stamp_diff offset a b = Ok d → (d <? max_difference)%float = true →
  is_Some (m !! Z.of_nat ia) ∨
  ∃ k e, m !! k = Some e ∧ head e = Some (PInt (Z.of_nat ib)).
Proof.
  intros Hrun Ha Hb Hd Hlt.
  apply associate_run_pieces in Hrun
    as (pm & st & Hpm & _ & Hscan & Hinv & Hsec & ->).
  assert (Hin : (d, ia, ib) ∈ py_sort pm).
  { rewrite py_sort_perm. by eapply potential_matches_complete. }
  apply scan_served in Hscan as [Hall _].
  rewrite Forall_forall in Hall. destruct (Hall _ Hin) as [Hf|Hs]; simpl in *.
  - left. by apply (inv_claimed _ _ _ _ _ Hinv).
  - right. by apply (inv_taken _ _ Hsec).
Qed.

(** X4. The map returned by [associate] has at most as many entries as the
    second list has records, so at least [len(first_list) -
    len(second_list)] primary records are counted as missing. *)
Theorem associate_size_bound kind first_list second_list offset max_difference m n :
  associate kind first_list second_list offset max_difference = Ok (m, n) →
  size m ≤ length second_list ∧ size m ≤ length first_list ∧
  length first_list - length second_list ≤ n.
Proof.
  intros Hrun. pose proof Hrun as Hrun'.
  apply associate_run_pieces in Hrun'
    as (pm & st & _ & _ & _ & Hinv & Hsec & ->).
  apply associate_inv in Hrun as (st' & miss & Hrun & Hm & ->).
  apply associate_run_inv in Hrun as [Hinv' Hmiss].
  apply missing_from_spec in Hmiss as (Hlen & _ & _).
  rewrite drop_0, take_ge in Hlen
    by (by rewrite (inv_len_first _ _ _ _ _ Hinv')).
  pose proof (inv_count _ _ _ _ _ Hinv') as Hc1. rewrite <- Hm in Hc1.
  pose proof (inv_count_second _ _ Hsec) as Hc2.
  pose proof (inv_count _ _ _ _ _ Hinv) as Hc3. lia.
Qed.

End AssociatorMaximal.

(** ** The order of binary64 numbers *)

Lemma SFcompare_key x y :
  x ≠ S754_nan → y ≠ S754_nan →
  (SFcompare x y = Some Lt ↔ key_lt (sf_key x) (sf_key y)) ∧
  (SFcompare x y = Some Eq ↔ sf_key x = sf_key y) ∧
  (SFcompare x y = Some Gt ↔ key_lt (sf_key y) (sf_key x)).
Proof.
  intros Hx Hy. unfold key_lt.
  destruct x as [sx|sx| |sx mx ex], y as [sy|sy| |sy my ey]; try done;
    try destruct sx; try destruct sy; simpl;
    try (split_and!; split; intros; try discriminate; try lia; try (simplify_eq; lia); done).
  all: change (Pos.compare_cont Eq ?a ?b) with (Pos.compare a b).
  all: destruct (Z.compare_spec ex ey); destruct (Pos.compare_spec mx my); simpl;
    split_and!; split; intros; try discriminate; try lia; try (simplify_eq; lia); try done;
    try (subst; done).
Qed.

Lemma SFcompare_total x y :
  x ≠ S754_nan → y ≠ S754_nan → ∃ c, SFcompare x y = Some c.
Proof.
  intros Hx Hy. destruct x, y; try done; simpl; eauto.
Qed.

Lemma ltb_key f g :
  not_nan f → not_nan g → (f <? g)%float = true ↔ key_lt (fkey f) (fkey g).
Proof.
  intros Hf Hg. rewrite ltb_spec. unfold SFltb, fkey.
  destruct (SFcompare_key _ _ Hf Hg) as (Hlt & Heq & Hgt).
  destruct (SFcompare_total _ _ Hf Hg) as [c Hc]. rewrite Hc in *.
  destruct c; split; intros; try done.
  - exfalso. assert (Some Eq = Some Lt) by (by apply Hlt). done.
  - by apply Hlt.
  - exfalso. assert (Some Gt = Some Lt) by (by apply Hlt). done.
Qed.

Lemma eqb_key f g :
  not_nan f → not_nan g → (f =? g)%float = true ↔ fkey f = fkey g.
Proof.
  intros Hf Hg. rewrite FloatAxioms.eqb_spec. unfold SFeqb, fkey.
  destruct (SFcompare_key _ _ Hf Hg) as (Hlt & Heq & Hgt).
  destruct (SFcompare_total _ _ Hf Hg) as [c Hc]. rewrite Hc in *.
  destruct c; split; intros; try done.
  - by apply Heq.
  - exfalso. assert (Some Lt = Some Eq) by (by apply Heq). done.
  - exfalso. assert (Some Gt = Some Eq) by (by apply Heq). done.
Qed.

Lemma leb_key f g :
  not_nan f → not_nan g → (f <=? g)%float = true ↔ ¬ key_lt (fkey g) (fkey f).
Proof.
  intros Hf Hg. rewrite leb_spec. unfold SFleb, fkey.
  destruct (SFcompare_key _ _ Hf Hg) as (Hlt & Heq & Hgt).
  destruct (SFcompare_total _ _ Hf Hg) as [c Hc]. rewrite Hc in *.
  destruct c; split; intros H; try done.
  - intros Hk. apply Hgt in Hk. done.
  - intros Hk. apply Hgt in Hk. done.
  - exfalso. apply H. by apply Hgt.
Qed.

Lemma ltb_not_nan f g : (f <? g)%float = true → not_nan f ∧ not_nan g.
Proof.
  rewrite ltb_spec. unfold SFltb, not_nan.
  destruct (Prim2SF f), (Prim2SF g); simpl; try done.
Qed.

Lemma eqb_refl_not_nan f : (f =? f)%float = true ↔ not_nan f.
Proof.
  rewrite FloatAxioms.eqb_spec. unfold SFeqb, not_nan. split.
  - destruct (Prim2SF f); simpl; done.
  - intros Hf. destruct (SFcompare_key _ _ Hf Hf) as (_ & Heq & _).
    assert (SFcompare (Prim2SF f) (Prim2SF f) = Some Eq) as -> by (by apply Heq).
    done.
Qed.

Lemma key_lt_trans a b c : key_lt a b → key_lt b c → key_lt a c.
Proof. unfold key_lt. destruct a as [[? ?] ?], b as [[? ?] ?], c as [[? ?] ?]; simpl. lia. Qed.

Lemma key_le_lt_trans a b c : ¬ key_lt b a → key_lt b c → key_lt a c.
Proof. unfold key_lt. destruct a as [[? ?] ?], b as [[? ?] ?], c as [[? ?] ?]; simpl. lia. Qed.

Lemma key_lt_le_trans a b c : key_lt a b → ¬ key_lt c b → key_lt a c.
Proof. unfold key_lt. destruct a as [[? ?] ?], b as [[? ?] ?], c as [[? ?] ?]; simpl. lia. Qed.

Lemma key_le_trans a b c : ¬ key_lt b a → ¬ key_lt c b → ¬ key_lt c a.
Proof. unfold key_lt. destruct a as [[? ?] ?], b as [[? ?] ?], c as [[? ?] ?]; simpl. lia. Qed.

Lemma key_lt_irrefl a : ¬ key_lt a a.
Proof. unfold key_lt. destruct a as [[? ?] ?]; simpl. lia. Qed.

Lemma key_lt_asym a b : key_lt a b → ¬ key_lt b a.
Proof. unfold key_lt. destruct a as [[? ?] ?], b as [[? ?] ?]; simpl. lia. Qed.

Lemma key_total a b : key_lt a b ∨ a = b ∨ key_lt b a.
Proof.
  unfold key_lt. destruct a as [[a1 a2] a3], b as [[b1 b2] b3]; simpl.
  destruct (Z.lt_trichotomy a1 b1) as [?|[->|?]]; [left; lia| |right; right; lia].
  destruct (Z.lt_trichotomy a2 b2) as [?|[->|?]]; [left; lia| |right; right; lia].
  destruct (Z.lt_trichotomy a3 b3) as [?|[->|?]]; [left; lia|by right; left|right; right; lia].
Qed.


Lemma key_eq_iff a b : key_eq a b ↔ a = b.
Proof.
  unfold key_eq. destruct a as [[? ?] ?], b as [[? ?] ?]; simpl. split.
  - by intros (-> & -> & ->).
  - by intros [= -> -> ->].
Qed.

(** On candidates whose differences are numbers, Python's [<] is the
    lexicographic order of the keys. *)
Lemma cand_lt_key (x y : cand) :
  not_nan x.1.1 → not_nan y.1.1 → cand_lt x y = true ↔ cand_key_lt x y.
Proof.
  destruct x as [[d1 a1] b1], y as [[d2 a2] b2]. simpl. intros H1 H2.
  unfold cand_lt, cand_key_lt. simpl.
  destruct (d1 =? d2)%float eqn:Heq; simpl.
  - apply eqb_key in Heq; [|done..]. rewrite <- key_eq_iff in Heq.
    destruct (a1 =? a2)%nat eqn:Ha; simpl.
    + apply Nat.eqb_eq in Ha as ->. rewrite Nat.ltb_lt. split; [by auto|].
      intros [Hlt|[_ [?|[_ ?]]]]; [|lia|done].
      exfalso. revert Heq Hlt. unfold key_eq, key_lt. lia.
    + apply Nat.eqb_neq in Ha. rewrite Nat.ltb_lt. split; [by auto|].
      intros [Hlt|[_ [?|[? _]]]]; [|done|done].
      exfalso. revert Heq Hlt. unfold key_eq, key_lt. lia.
  - rewrite ltb_key by done. split; [by left|].
    intros [?|[Hk _]]; [done|]. exfalso.
    apply key_eq_iff in Hk. apply eqb_key in Hk; [|done..]. congruence.
Qed.

Lemma cand_key_lt_irrefl x : ¬ cand_key_lt x x.
Proof.
  unfold cand_key_lt, key_lt, key_eq.
  destruct (fkey x.1.1) as [[? ?] ?]; simpl. lia.
Qed.

Lemma cand_key_lt_asym x y : cand_key_lt x y → ¬ cand_key_lt y x.
Proof.
  unfold cand_key_lt, key_lt, key_eq.
  destruct (fkey x.1.1) as [[? ?] ?], (fkey y.1.1) as [[? ?] ?]; simpl. lia.
Qed.

Lemma cand_key_le_trans x y z :
  ¬ cand_key_lt y x → ¬ cand_key_lt z y → ¬ cand_key_lt z x.
Proof.
  unfold cand_key_lt, key_lt, key_eq.
  destruct (fkey x.1.1) as [[? ?] ?], (fkey y.1.1) as [[? ?] ?],
    (fkey z.1.1) as [[? ?] ?]; simpl. lia.
Qed.

(** The first element of a sorted list of candidates is a least one. *)
Lemma py_sort_head_least (l : list cand) h t :
  Forall (λ c : cand, not_nan c.1.1) l →
  py_sort l = h :: t →
  ∀ c, c ∈ l → ¬ cand_key_lt c h.
Proof.
  revert h t. induction l as [|x l IH]; intros h t Hnn Hsort c Hc.
  - by apply elem_of_nil in Hc.
  - apply Forall_cons in Hnn as [Hx Hnn]. simpl in Hsort.
    destruct (py_sort l) as [|h' t'] eqn:Hl.
    + assert (l = []) as ->.
      { apply Permutation_nil_r. by rewrite <- Hl, py_sort_perm. }
      simpl in Hsort. injection Hsort as <- <-.
      apply list_elem_of_singleton in Hc as ->. apply cand_key_lt_irrefl.
    + assert (Hh' : not_nan h'.1.1).
      { eapply (proj1 (Forall_forall _ _) Hnn).
        rewrite <- (py_sort_perm l), Hl. by left. }
      simpl in Hsort. destruct (cand_lt h' x) eqn:Hlt.
      * injection Hsort as <- <-. apply cand_lt_key in Hlt; [|done..].
        apply elem_of_cons in Hc as [->|Hc]; [by apply cand_key_lt_asym|].
        by eapply IH.
      * injection Hsort as <- <-.
        assert (Hnlt : ¬ cand_key_lt h' x).
        { intros Hk. apply cand_lt_key in Hk; [|done..]. congruence. }
        apply elem_of_cons in Hc as [->|Hc]; [apply cand_key_lt_irrefl|].
        eapply cand_key_le_trans; [exact Hnlt|]. by eapply IH.
Qed.

(** ** The associator: the closest pair and the two variants *)

Section AssociatorOrder.
Context `{PyBuiltins}.
Implicit Types (first_list second_list : list row) (offset max_difference : float).

Lemma cand_ok_not_nan first_list second_list offset max_difference (c : cand) :
  cand_ok first_list second_list offset max_difference c → not_nan c.1.1.
Proof. intros (a & b & _ & _ & _ & Hlt). by apply ltb_not_nan in Hlt as [? _]. Qed.

(** An entry of the map is never replaced. *)
Lemma scan_step_keeps kind first_list second_list offset max_difference st c st' k e :
  scan_inv first_list second_list offset max_difference st →
  scan_step kind first_list second_list st c = Ok st' →
  matches st !! k = Some e → matches st' !! k = Some e.
Proof.
  intros Hinv Hstep Hk. destruct c as [[d ia] ib]. unfold scan_step in Hstep.
  apply bind_ok in Hstep as (fa & Hfa & Hstep). apply list_get_ok in Hfa.
  destruct fa; [by injection Hstep as <-|].
  apply bind_ok in Hstep as (fb & Hfb & Hstep).
  destruct fb; [by injection Hstep as <-|].
  apply bind_ok in Hstep as (e' & _ & Hstep). injection Hstep as <-. simpl.
  rewrite lookup_insert_ne; [done|]. intros <-.
  apply (inv_entry _ _ _ _ _ Hinv) in Hk as (ia' & ? & ? & ? & Hia & _ & Hflag & _).
  apply Nat2Z.inj in Hia as <-. congruence.
Qed.

Lemma scan_keeps kind first_list second_list offset max_difference cs st st' k e :
  scan_inv first_list second_list offset max_difference st →
  Forall (cand_ok first_list second_list offset max_difference) cs →
  scan kind first_list second_list cs st = Ok st' →
  matches st !! k = Some e → matches st' !! k = Some e.
Proof.
  revert st. induction cs as [|c cs IH]; intros st Hinv Hcs Hscan Hk; simpl in Hscan.
  - by injection Hscan as <-.
  - apply Forall_cons in Hcs as [Hc Hcs].
    apply bind_ok in Hscan as (st1 & Hstep & Hscan).
    eapply IH; [|done|done|].
    + by eapply scan_step_inv.
    + by eapply scan_step_keeps.
Qed.

(** X5. When some pair of records is below the threshold, the map returned
    by [associate] holds a pair whose stored difference is at most the
    difference of every pair below the threshold: the closest pair is always
    matched. *)
Theorem associate_keeps_closest kind first_list second_list offset max_difference
    m n ia ib a b d :
  associate kind first_list second_list offset max_difference = Ok (m, n) →
  first_list !! ia = Some a → second_list !! ib = Some b →
  stamp_diff offset a b = Ok d → (d <? max_difference)%float = true →
  ∃ ia0 ib0 d0 rest,
    m !! Z.of_nat ia0 = Some (PInt (Z.of_nat ib0) :: PFloat d0 :: rest) ∧
    ∀ ia' ib' a' b' d',
      first_list !! ia' = Some a' → second_list !! ib' = Some b' →
      stamp_diff offset a' b' = Ok d' → (d' <? max_difference)%float = true →
      (d0 <=? d')%float = true.
Proof.
  intros Hrun Ha Hb Hd Hlt.
  apply associate_run_pieces in Hrun
    as (pm & st & Hpm & Hok & Hscan & Hinv & _ & ->).
  assert (Hin : (d, ia, ib) ∈ pm) by (by eapply potential_matches_complete).
  assert (Hnn : Forall (λ c : cand, not_nan c.1.1) pm).
  { apply potential_matches_ok in Hpm. eapply Forall_impl; [exact Hpm|].
    intros c. apply cand_ok_not_nan. }
  destruct (py_sort pm) as [|[[d0 ia0] ib0] t] eqn:Hsort.
  { rewrite <- (py_sort_perm pm), Hsort in Hin. by apply elem_of_nil in Hin. }
  pose proof (py_sort_head_least pm _ _ Hnn Hsort) as Hleast.
  apply Forall_cons in Hok as [Hh Hok].
  destruct Hh as (a0 & b0 & Ha0 & Hb0 & Hd0 & Hlt0). simpl in Ha0, Hb0, Hd0, Hlt0.
  cbn [scan] in Hscan. apply bind_ok in Hscan as (st1 & Hstep & Hscan).
  assert (Hinv1 : scan_inv first_list second_list offset max_difference st1).
  { eapply scan_step_inv; [apply scan_inv_init| |exact Hstep].
    exists a0, b0. done. }
  assert (∃ rest, matches st1 !! Z.of_nat ia0
                    = Some (PInt (Z.of_nat ib0) :: PFloat d0 :: rest))
    as [rest Hentry].
  { unfold scan_step in Hstep. simpl in Hstep. unfold list_get in Hstep.
    rewrite !lookup_replicate_2 in Hstep by (by eapply lookup_lt_Some).
    simpl in Hstep. apply bind_ok in Hstep as (e & He & Hstep).
    injection Hstep as <-. simpl. apply make_entry_shape in He as [rest ->].
    exists rest. by rewrite lookup_insert_eq. }
  exists ia0, ib0, d0, rest. split; [by eapply scan_keeps|].
  intros ia' ib' a' b' d' Ha' Hb' Hd' Hlt'.
  assert (Hin' : (d', ia', ib') ∈ pm) by (by eapply potential_matches_complete).
  apply Hleast in Hin'. apply ltb_not_nan in Hlt0 as [? _].
  apply ltb_not_nan in Hlt' as [? _].
  apply leb_key; [done..|]. intros Hk. apply Hin'. by left.
Qed.

Lemma scan_step_short first_list second_list st c st' :
  scan_step TumAssoc first_list second_list st c = Ok st' →
  scan_step EurocAssoc first_list second_list (short_entries st) c
    = Ok (short_entries st').
Proof.
  destruct c as [[d ia] ib]. unfold scan_step. simpl. intros Hstep.
  apply bind_ok in Hstep as (fa & -> & Hstep). simpl.
  destruct fa; [by injection Hstep as <-|].
  apply bind_ok in Hstep as (fb & -> & Hstep). simpl.
  destruct fb; [by injection Hstep as <-|].
  apply bind_ok in Hstep as (e & He & Hstep). injection Hstep as <-.
  bind_inv. subst e. unfold short_entries. simpl. by rewrite fmap_insert.
Qed.

Lemma scan_short first_list second_list cs st st' :
  scan TumAssoc first_list second_list cs st = Ok st' →
  scan EurocAssoc first_list second_list cs (short_entries st)
    = Ok (short_entries st').
Proof.
  revert st. induction cs as [|c cs IH]; intros st Hscan; simpl in *.
  - by injection Hscan as <-.
  - apply bind_ok in Hscan as (st1 & Hstep & Hscan).
    rewrite (scan_step_short _ _ _ _ _ Hstep). simpl. by apply IH.
Qed.

(** X6. The two associators compute the same matching. Whenever the TUM
    variant returns, the EuRoC variant returns on the same arguments the map
    with the same keys whose entries are the first two components (secondary
    index and difference) of the TUM entries, and the same count of missing
    associations. *)
Theorem associate_variants_agree first_list second_list offset max_difference m n :
  associate TumAssoc first_list second_list offset max_difference = Ok (m, n) →
  associate EurocAssoc first_list second_list offset max_difference
    = Ok (take 2 <$> m, n).
Proof.
  unfold associate, associate_run. intros Ha.
  apply bind_ok in Ha as ([st miss] & Hrun & Ha). injection Ha as <- <-.
  apply bind_ok in Hrun as (pm & Hpm & Hrun).
  apply bind_ok in Hrun as (st1 & Hscan & Hrun).
  apply bind_ok in Hrun as (miss1 & Hmiss & Hrun). injection Hrun as -> ->.
  rewrite Hpm. simpl. apply scan_short in Hscan.
  unfold short_entries in Hscan at 1. simpl in Hscan. rewrite fmap_empty in Hscan.
  rewrite Hscan. simpl. rewrite Hmiss. done.
Qed.

End AssociatorOrder.

(** ** The association cache across two constructions *)

Section CacheReopen.
Context `{PyBuiltins} `{JsonScalars}.



End CacheReopen.

(** ** The nearest-timestamp lookup *)

Lemma argmin_from_spec l pre mp k :
  Forall not_nan (pre ++ l) →
  pre !! k = Some mp →
  (∀ j x, pre !! j = Some x → (mp <=? x)%float = true) →
  (∀ j x, j < k → pre !! j = Some x → (mp <? x)%float = true) →
  ∃ d, (pre ++ l) !! argmin_from l (length pre) mp k = Some d ∧
       (∀ j x, (pre ++ l) !! j = Some x → (d <=? x)%float = true) ∧
       (∀ j x, j < argmin_from l (length pre) mp k →
               (pre ++ l) !! j = Some x → (d <? x)%float = true).
Proof.
  revert pre mp k. induction l as [|x l IH]; intros pre mp k Hnn Hk Hle Hlt.
  - simpl. rewrite app_nil_r in *. exists mp. split_and!; eauto.
  - assert (Hmp : not_nan mp).
    { eapply Forall_forall; [exact Hnn|]. apply elem_of_app. left.
      by eapply list_elem_of_lookup_2. }
    assert (Hx : not_nan x).
    { eapply Forall_forall; [exact Hnn|]. apply elem_of_app. right. by left. }
    assert (Hpre : ∀ j y, pre !! j = Some y → not_nan y).
    { intros j y Hy. eapply Forall_forall; [exact Hnn|]. apply elem_of_app. left.
      by eapply list_elem_of_lookup_2. }
    assert (Hnan : is_nan x = false).
    { unfold is_nan. by rewrite (proj2 (eqb_refl_not_nan x) Hx). }
    cbn [argmin_from]. rewrite Hnan.
    replace (S (length pre)) with (length (pre ++ [x])) by (rewrite length_app; simpl; lia).
    replace (pre ++ x :: l) with ((pre ++ [x]) ++ l) in * by (by rewrite <- app_assoc).
    destruct (mp <=? x)%float eqn:Hcmp; cbn [negb].
    + apply IH; [done| | |].
      * by apply lookup_app_l_Some.
      * intros j y Hy. apply lookup_app_Some in Hy as [Hy|[_ Hy]]; [by eapply Hle|].
        apply list_lookup_singleton_Some in Hy as [_ <-]. done.
      * intros j y Hj Hy. apply lookup_app_Some in Hy as [Hy|[Hge _]]; [by eapply Hlt|].
        apply lookup_lt_Some in Hk. lia.
    + assert (Hxmp : key_lt (fkey x) (fkey mp)).
      { destruct (key_total (fkey x) (fkey mp)) as [?|[Heq|Hgt]]; [done| |].
        - exfalso. assert ((mp <=? x)%float = true); [|congruence].
          apply leb_key; [done..|]. rewrite Heq. apply key_lt_irrefl.
        - exfalso. assert ((mp <=? x)%float = true); [|congruence].
          apply leb_key; [done..|]. by apply key_lt_asym. }
      apply IH; [done| | |].
      * rewrite lookup_app_r by lia. by rewrite Nat.sub_diag.
      * intros j y Hy. apply lookup_app_Some in Hy as [Hy|[_ Hy]].
        -- apply leb_key; [done|by eapply Hpre|].
           apply key_lt_asym. eapply key_lt_le_trans; [exact Hxmp|].
           apply leb_key; [done|by eapply Hpre|]. by eapply Hle.
        -- apply list_lookup_singleton_Some in Hy as [_ <-].
           apply leb_key; [done..|]. apply key_lt_irrefl.
      * intros j y Hj Hy. apply lookup_app_Some in Hy as [Hy|[Hge _]]; [|lia].
        apply ltb_key; [done|by eapply Hpre|].
        eapply key_lt_le_trans; [exact Hxmp|].
        apply leb_key; [done|by eapply Hpre|]. by eapply Hle.
Qed.

Lemma argmin_from_bound l i mp k :
  k < i → argmin_from l i mp k < i + length l.
Proof.
  revert i mp k. induction l as [|x l IH]; intros i mp k Hk; simpl; [lia|].
  destruct (negb (mp <=? x)%float).
  - destruct (is_nan x); [lia|]. specialize (IH (S i) x i). lia.
  - specialize (IH (S i) mp k). lia.
Qed.

Lemma np_argmin_bound a i : np_argmin a = Ok i → i < length a.
Proof.
  destruct a as [|x a]; simpl; [done|]. intros [= <-].
  destruct (is_nan x); [lia|].
  pose proof (argmin_from_bound a 1 x 0). lia.
Qed.

(** On an array without NaN, [np.argmin] returns the first index of a least
    element. *)
Lemma np_argmin_spec a i :
  Forall (λ x, is_nan x = false) a → np_argmin a = Ok i →
  ∃ d, a !! i = Some d ∧
       (∀ j x, a !! j = Some x → (d <=? x)%float = true) ∧
       (∀ j x, j < i → a !! j = Some x → (d <? x)%float = true).
Proof.
  intros Hnn Ha. destruct a as [|x a]; [done|]. simpl in Ha.
  assert (Hnn' : Forall not_nan (x :: a)).
  { eapply Forall_impl; [exact Hnn|]. intros y Hy. apply eqb_refl_not_nan.
    unfold is_nan in Hy. by destruct (y =? y)%float. }
  apply Forall_cons in Hnn as [Hx _]. rewrite Hx in Ha. injection Ha as <-.
  apply (argmin_from_spec a [x] x 0); [done|done| |].
  - intros j y Hy. apply list_lookup_singleton_Some in Hy as [_ <-].
    apply Forall_cons in Hnn' as [Hx' _].
    apply leb_key; [done..|]. apply key_lt_irrefl.
  - intros j y Hj. lia.
Qed.

Section ClosestTimestamp.
Context `{PyBuiltins}.

(** X8. [getClosestTimestamp] returns a timestamp of the trajectory, which
    is the cached one when there is a cache and the freshly extracted one
    otherwise. When no distance to the query is a NaN, no timestamp of the
    trajectory is closer to the query than the returned one, and every
    timestamp before it in the sequence is strictly farther. *)
Theorem closest_timestamp_spec gt cache query closest timestamps :
  getClosestTimestamp gt cache query = Ok (closest, timestamps) →
  match cache with
  | Some ts => timestamps = ts
  | None => ∃ trajectory, getFull3dTrajectory gt = Ok (trajectory, timestamps)
  end ∧
  ∃ i, timestamps !! i = Some closest ∧
    (Forall (λ t, is_nan (abs (t - query)) = false) timestamps →
     (∀ j t, timestamps !! j = Some t →
        (abs (closest - query) <=? abs (t - query))%float = true) ∧
     (∀ j t, j < i → timestamps !! j = Some t →
        (abs (closest - query) <? abs (t - query))%float = true)).
Proof.
  unfold getClosestTimestamp. intros Hrun.
  apply bind_ok in Hrun as (ts & Hts & Hrun).
  apply bind_ok in Hrun as (i & Hi & Hrun).
  apply bind_ok in Hrun as (r & Hr & Hrun). injection Hrun as <- <-.
  apply list_get_ok in Hr. split.
  - destruct cache as [ts0|]; [by injection Hts as <-|].
    apply bind_ok in Hts as ([traj ts1] & Hfull & Hts). injection Hts as <-.
    by exists traj.
  - exists i. split; [done|]. intros Hnn.
    destruct (np_argmin_spec _ i (proj2 (Forall_fmap _ _ _) Hnn) Hi)
      as (d & Hd & Hle & Hlt).
    rewrite list_lookup_fmap, Hr in Hd. injection Hd as <-. split.
    + intros j t Ht. apply (Hle j). by rewrite list_lookup_fmap, Ht.
    + intros j t Hj Ht. apply (Hlt j); [done|]. by rewrite list_lookup_fmap, Ht.
Qed.

(** X9. [getClosestTimestamp] on a cached trajectory returns exactly when
    the trajectory is not empty, and raises [ValueError] on an empty one. A
    dataset of at most two samples has no inner frame: the lookup without
    cache extracts an empty trajectory and raises [ValueError]. *)
Theorem closest_timestamp_empty gt query (timestamps : list float) n :
  (is_ok (getClosestTimestamp gt (Some timestamps) query) ↔ timestamps ≠ []) ∧
  getClosestTimestamp gt (Some []) query = Raise ValueError ∧
  (len_data gt = Ok n → n ≤ 2 →
   getClosestTimestamp gt None query = Raise ValueError).
Proof.
  split_and!.
  - unfold getClosestTimestamp. simpl. split.
    + intros [r Hr] ->. done.
    + intros Hne.
      destruct (np_argmin ((λ t, abs (t - query)%float) <$> timestamps))
        as [i|e] eqn:Hi.
      * pose proof (np_argmin_bound _ _ Hi) as Hlt. rewrite length_fmap in Hlt.
        destruct (lookup_lt_is_Some_2 timestamps i Hlt) as [r Hr].
        simpl. unfold list_get. rewrite Hr. simpl. unfold is_ok. eauto.
      * destruct timestamps; [done|]. done.
  - done.
  - intros Hn Hle. unfold getClosestTimestamp, getFull3dTrajectory.
    rewrite Hn. simpl. unfold py_range.
    replace (Z.to_nat (Z.of_nat n - 1 - 1)) with 0 by lia. done.
Qed.

End ClosestTimestamp.

(** ** The readers built on an association map *)

Section AssociatedReaders.
Context `{PyBuiltins}.

(** X10. In a TUM or EuRoC reader whose map was built by [associate] from
    its own records, [getDataLine] never fails on a key of the map: it
    returns the record of the second list that the key was matched with,
    whose timestamp differs from the primary one by the stored difference. *)
Theorem associate_resolves tum kind first_list data offset max_difference m n s k e :
  associate kind first_list data offset max_difference = Ok (m, n) →
  m !! k = Some e →
  ∃ ia ib a b d,
    k = Z.of_nat ia ∧ first_list !! ia = Some a ∧ data !! ib = Some b ∧
    head e = Some (PInt (Z.of_nat ib)) ∧ stamp_diff offset a b = Ok d ∧
    getDataLine (associated_reader tum data m s) k = Ok b.
Proof.
  intros Ha Hk. apply associate_inv in Ha as (st & miss & Hrun & -> & _).
  apply associate_run_inv in Hrun as [Hinv _].
  destruct (inv_entry _ _ _ _ _ Hinv _ _ Hk)
    as (ia & ib & d & rest & -> & -> & _ & _ & a & b & Ha' & Hb & Hd & _).
  simpl in Ha', Hb, Hd. exists ia, ib, a, b, d. split_and!; try done.
  assert (getDataLine (associated_reader tum data (matches st) s) (Z.of_nat ia)
          = associated_line data (matches st) (Z.of_nat ia)) as -> by (by destruct tum).
  unfold associated_line, dict_get. rewrite Hk. simpl.
  change (py_getitem (PInt (Z.of_nat ib) :: PFloat d :: rest) 0)
    with (Ok (PInt (Z.of_nat ib)) : result pyval). simpl.
  rewrite py_getitem_nat. by apply list_get_ok.
Qed.

(** X11. The export cannot start on a TUM or EuRoC reader whose map was
    built by [associate]: with a start offset of 0 (or below) and at least
    one record, the reconstruction of frame 0 looks up a negative key, and
    [convertToSimpleXYZ] raises [KeyError] before it writes a line. *)
Theorem export_fails_on_associated tum kind first_list data offset max_difference
    m n s :
  associate kind first_list data offset max_difference = Ok (m, n) →
  data ≠ [] → (s ≤ 0)%Z →
  convertToSimpleXYZ (associated_reader tum data m s) = ([], Raise KeyError).
Proof.
  intros Ha Hdata Hs.
  assert (Hneg : m !! (0 + s - 1)%Z = None).
  { eapply associate_no_negative_key; [exact Ha|lia]. }
  assert (Hcall : getTimePoseAndAbsoluteScale (associated_reader tum data m s) 0
                  = Raise KeyError).
  { assert (getTimePoseAndAbsoluteScale (associated_reader tum data m s) 0
            = reconstruct_xyz (associated_reader tum data m s) 0) as ->
      by (by destruct tum).
    unfold reconstruct_xyz.
    assert (getDataLine (associated_reader tum data m s)
              (0 + start_frame_id (associated_reader tum data m s) - 1)
            = Raise KeyError) as ->; [|done].
    assert (start_frame_id (associated_reader tum data m s) = s) as ->
      by (by destruct tum).
    assert (∀ j, getDataLine (associated_reader tum data m s) j
                 = associated_line data m j) as -> by (by destruct tum).
    unfold associated_line, dict_get. by rewrite Hneg. }
  unfold convertToSimpleXYZ.
  assert (len_data (associated_reader tum data m s) = Ok (length data)) as ->
    by (by destruct tum).
  destruct data as [|r data]; [done|].
  rewrite py_range_from_zero. cbn [length seq fmap list_fmap export_loop].
  change (Z.of_nat 0) with 0%Z. by rewrite Hcall.
Qed.

End AssociatedReaders.

(** ** The simple reader on a well-formed file *)

Lemma py_getitem_range {A} (l : list A) (i : Z) :
  (is_ok (py_getitem l i) ↔ (- Z.of_nat (length l) ≤ i < Z.of_nat (length l))%Z) ∧
  (∀ e, py_getitem l i = Raise e → e = IndexError) ∧
  (∀ x, py_getitem l i = Ok x → x ∈ l).
Proof.
  unfold py_getitem. cbv zeta.
  set (n := Z.of_nat (length l)).
  set (j := if (i <? 0)%Z then (i + n)%Z else i).
  assert (Hj : ((0 ≤ j < n) ↔ (- n ≤ i < n))%Z).
  { unfold j. destruct (Z.ltb_spec i 0); lia. }
  destruct ((j <? 0)%Z || (n <=? j)%Z) eqn:Hout.
  - split_and!.
    + split; [by intros [? ?]|]. intros Hin. apply Hj in Hin.
      apply orb_true_iff in Hout as [Hlt|Hge]; [apply Z.ltb_lt in Hlt|apply Z.leb_le in Hge]; lia.
    + by intros e [= <-].
    + done.
  - apply orb_false_iff in Hout as [Hlt Hge].
    apply Z.ltb_ge in Hlt. apply Z.leb_gt in Hge.
    destruct (lookup_lt_is_Some_2 l (Z.to_nat j)) as [x Hx]; [unfold n in *; lia|].
    rewrite Hx. split_and!.
    + split; [intros _; apply Hj; lia|]. intros _. unfold is_ok. eauto.
    + done.
    + intros x' [= <-]. by eapply list_elem_of_lookup_2.
Qed.

Lemma map_fmap {A B} (f : A → B) (l : list A) : map f l = f <$> l.
Proof. induction l as [|x l IH]; simpl; [done|]. by rewrite IH. Qed.

Section SimpleReader.
Context `{PyBuiltins}.

Lemma well_formed_position data s line :
  well_formed line →
  ∃ t x y z, field (PStr <$> strip_split line) 0 = Ok t ∧
             position (Simple data s) (PStr <$> strip_split line) = Ok (x, y, z).
Proof.
  intros ([t Ht] & [x Hx] & [y Hy] & [z Hz]). unfold position.
  rewrite Hx, Hy, Hz. simpl. eauto 10.
Qed.

(** The sample reconstructed from two well-formed lines. *)
Lemma simple_sample data s frame_id line_prev line :
  well_formed line_prev → well_formed line →
  py_getitem data (frame_id + s - 1 + s) = Ok line_prev →
  py_getitem data (frame_id + s + s) = Ok line →
  ∃ t x y z scale,
    field (PStr <$> strip_split line) 0 = Ok t ∧
    position (Simple data s) (PStr <$> strip_split line) = Ok (x, y, z) ∧
    getTimePoseAndAbsoluteScale (Simple data s) frame_id = Ok (t, x, y, z, scale).
Proof.
  intros Hwp Hw Hp Hc.
  destruct (well_formed_position data s _ Hwp) as (tp & xp & yp & zp & _ & Hpp).
  destruct (well_formed_position data s _ Hw) as (t & x & y & z & Ht & Hpc).
  exists t, x, y, z, (displacement x y z xp yp zp). split_and!; [done..|].
  apply (reconstruct_returns (Simple data s) frame_id
           (PStr <$> strip_split line_prev) (PStr <$> strip_split line));
    simpl; try done.
  - by rewrite Hp.
  - by rewrite Hc.
Qed.

Lemma simple_in_range data s frame_id :
  Forall well_formed data →
  (- Z.of_nat (length data) < frame_id + 2 * s < Z.of_nat (length data))%Z →
  is_ok (getTimePoseAndAbsoluteScale (Simple data s) frame_id).
Proof.
  intros Hwf Hr.
  destruct (py_getitem_range data (frame_id + s - 1 + s)) as (Hrp & _ & Hinp).
  destruct (py_getitem_range data (frame_id + s + s)) as (Hrc & _ & Hinc).
  destruct (proj2 Hrp) as [lp Hlp]; [lia|].
  destruct (proj2 Hrc) as [lc Hlc]; [lia|].
  rewrite Forall_forall in Hwf.
  destruct (simple_sample data s frame_id lp lc) as (t & x & y & z & sc & _ & _ & ->);
    [by apply Hwf, Hinp|by apply Hwf, Hinc|done|done|].
  unfold is_ok. eauto.
Qed.

Lemma simple_out_of_range data s frame_id :
  Forall well_formed data →
  ¬ (- Z.of_nat (length data) < frame_id + 2 * s < Z.of_nat (length data))%Z →
  getTimePoseAndAbsoluteScale (Simple data s) frame_id = Raise IndexError.
Proof.
  intros Hwf Hout.
  destruct (py_getitem_range data (frame_id + s - 1 + s)) as (Hrp & Hep & Hinp).
  destruct (py_getitem_range data (frame_id + s + s)) as (Hrc & Hec & Hinc).
  change (getTimePoseAndAbsoluteScale (Simple data s) frame_id)
    with (reconstruct_xyz (Simple data s) frame_id).
  unfold reconstruct_xyz. cbn [getDataLine start_frame_id].
  destruct (py_getitem data (frame_id + s - 1 + s)) as [lp|e] eqn:Hlp; cbn [bind].
  - rewrite Forall_forall in Hwf.
    destruct (Hwf lp (Hinp _ eq_refl)) as (_ & [x ->] & [y ->] & [z ->]). cbn [bind].
    destruct (py_getitem data (frame_id + s + s)) as [lc|e] eqn:Hlc; cbn [bind].
    + exfalso. apply Hout.
      assert (is_ok (Ok lp : result string)) as Hokp by (unfold is_ok; eauto).
      assert (is_ok (Ok lc : result string)) as Hokc by (unfold is_ok; eauto).
      apply Hrp in Hokp. apply Hrc in Hokc. lia.
    + by rewrite (Hec e eq_refl).
  - by rewrite (Hep e eq_refl).
Qed.

(** X12. On a simple file whose lines are well formed, the reconstruction
    of a frame returns exactly when [frame_id + 2 * start_frame_id] lies
    strictly between [-N] and [N], [N] being the number of lines (negative
    frames wrap around); outside this range it raises [IndexError]. *)
Theorem simple_returns_iff data s frame_id :
  Forall well_formed data →
  (is_ok (getTimePoseAndAbsoluteScale (Simple data s) frame_id) ↔
   (- Z.of_nat (length data) < frame_id + 2 * s < Z.of_nat (length data))%Z) ∧
  (¬ (- Z.of_nat (length data) < frame_id + 2 * s < Z.of_nat (length data))%Z →
   getTimePoseAndAbsoluteScale (Simple data s) frame_id = Raise IndexError).
Proof.
  intros Hwf. split; [split|].
  - intros [smp Hs].
    destruct (decide (- Z.of_nat (length data) < frame_id + 2 * s
                      < Z.of_nat (length data))%Z) as [Hr|Hout]; [done|].
    rewrite (simple_out_of_range data s frame_id Hwf Hout) in Hs. done.
  - by apply simple_in_range.
  - by apply simple_out_of_range.
Qed.

(** The sample of record [i] of a well-formed file read without offset. *)
Lemma simple_sample_at data i line :
  Forall well_formed data → data !! i = Some line →
  ∃ t x y z scale,
    field (PStr <$> strip_split line) 0 = Ok t ∧
    position (Simple data 0) (PStr <$> strip_split line) = Ok (x, y, z) ∧
    getTimePoseAndAbsoluteScale (Simple data 0) (Z.of_nat i) = Ok (t, x, y, z, scale).
Proof.
  intros Hwf Hi. pose proof (lookup_lt_Some _ _ _ Hi) as Hlt.
  destruct (py_getitem_range data (Z.of_nat i + 0 - 1 + 0)) as (Hrp & _ & Hinp).
  destruct (proj2 Hrp) as [lp Hlp]; [lia|].
  rewrite Forall_forall in Hwf.
  apply (simple_sample data 0 (Z.of_nat i) lp line).
  - by apply Hwf, Hinp.
  - apply Hwf. by eapply list_elem_of_lookup_2.
  - done.
  - replace (Z.of_nat i + 0 + 0)%Z with (Z.of_nat i) by lia.
    rewrite py_getitem_nat. by apply list_get_ok.
Qed.

Lemma reconstructed_all gt iis :
  Forall (λ ii, is_ok (getTimePoseAndAbsoluteScale gt ii)) iis →
  Forall2 (λ ii p, p.1 = ii ∧ getTimePoseAndAbsoluteScale gt ii = Ok p.2)
    iis (reconstructed gt iis).
Proof.
  induction 1 as [|ii iis [smp Hsmp] _ IH]; [constructor|].
  unfold reconstructed in *. cbn [omap list_omap]. unfold attempt at 1.
  rewrite Hsmp. by constructor.
Qed.

(** X13. On a simple file of [N] well-formed lines read without offset,
    [getFull3dTrajectory] returns exactly the [N - 2] inner records in file
    order: element [i] of the timestamps is the timestamp of line [i + 1],
    and element [i] of the trajectory is its scaled position cast to
    binary32. *)
Theorem simple_full_trajectory data :
  Forall well_formed data →
  ∃ trajectory timestamps,
    getFull3dTrajectory (Simple data 0) = Ok (trajectory, timestamps) ∧
    length trajectory = length data - 2 ∧ length timestamps = length data - 2 ∧
    ∀ i line, i < length data - 2 → data !! (S i) = Some line →
      ∃ t x y z,
        field (PStr <$> strip_split line) 0 = Ok t ∧
        position (Simple data 0) (PStr <$> strip_split line) = Ok (x, y, z) ∧
        timestamps !! i = Some t ∧
        trajectory !! i = Some [to_float32 x; to_float32 y; to_float32 z].
Proof.
  intros Hwf. unfold getFull3dTrajectory. cbn [len_data bind].
  rewrite trajectory_loop_spec, py_range_inner. cbn [app fst snd].
  set (frames := (λ i, Z.of_nat (1 + i)) <$> seq 0 (length data - 2)).
  assert (Hall : Forall (λ ii, is_ok (getTimePoseAndAbsoluteScale (Simple data 0) ii))
                   frames).
  { apply Forall_fmap, Forall_forall. intros i Hi. apply elem_of_seq in Hi.
    change (is_ok (getTimePoseAndAbsoluteScale (Simple data 0) (Z.of_nat (1 + i)))).
    destruct (lookup_lt_is_Some_2 data (1 + i)) as [line Hline]; [lia|].
    destruct (simple_sample_at data (1 + i) line Hwf Hline)
      as (t & x & y & z & sc & _ & _ & ->). unfold is_ok. eauto. }
  apply reconstructed_all in Hall.
  pose proof (Forall2_length _ _ _ Hall) as Hlen.
  unfold frames in Hlen at 1. rewrite length_fmap, length_seq in Hlen.
  eexists _, _. split; [done|].
  rewrite map_fmap, !length_fmap. split_and!; [done..|].
  intros i line Hi Hline.
  destruct (simple_sample_at data (S i) line Hwf Hline)
    as (t & x & y & z & sc & Ht & Hpos & Hsmp).
  destruct (Forall2_lookup_l _ _ _ i (Z.of_nat (1 + i)) Hall) as ([ii smp] & Hp & _ & Hs).
  { unfold frames. by rewrite list_lookup_fmap, lookup_seq_lt. }
  cbn [snd] in Hs. change (1 + i) with (S i) in Hs. rewrite Hsmp in Hs.
  injection Hs as <-.
  exists t, x, y, z. split_and!; [done..| |].
  - by rewrite list_lookup_fmap, Hp.
  - by rewrite !list_lookup_fmap, Hp.
Qed.

(** X14. On a simple file of [N] well-formed lines read without offset,
    [convertToSimpleXYZ] returns after writing [N] lines; line [i] holds the
    formatted timestamp and scaled position of line [i] of the file, and a
    scale field that is the formatted 1 on line 0. *)
Theorem simple_export data :
  Forall well_formed data →
  ∃ lines,
    convertToSimpleXYZ (Simple data 0) = (lines, Ok ()) ∧
    length lines = length data ∧
    ∀ i line, data !! i = Some line →
      ∃ t x y z scale out,
        field (PStr <$> strip_split line) 0 = Ok t ∧
        position (Simple data 0) (PStr <$> strip_split line) = Ok (x, y, z) ∧
        lines !! i = Some out ∧
        written_for (Z.of_nat i) (t, x, y, z, scale) out.
Proof.
  intros Hwf. unfold convertToSimpleXYZ. cbn [len_data].
  rewrite py_range_from_zero.
  destruct (export_loop_returns (Simple data 0) (Z.of_nat <$> seq 0 (length data)) [])
    as (lines & Hrun & Hl).
  { apply Forall_fmap, Forall_forall. intros i Hi. apply elem_of_seq in Hi.
    change (is_ok (getTimePoseAndAbsoluteScale (Simple data 0) (Z.of_nat i))).
    destruct (lookup_lt_is_Some_2 data i) as [line Hline]; [lia|].
    destruct (simple_sample_at data i line Hwf Hline)
      as (t & x & y & z & sc & _ & _ & ->). unfold is_ok. eauto. }
  exists lines. split; [done|].
  pose proof (Forall2_length _ _ _ Hl) as Hlen.
  rewrite length_fmap, length_seq in Hlen. split; [done|].
  intros i line Hline. pose proof (lookup_lt_Some _ _ _ Hline) as Hi.
  destruct (simple_sample_at data i line Hwf Hline)
    as (t & x & y & z & sc & Ht & Hpos & Hsmp).
  destruct (Forall2_lookup_l _ _ _ i (Z.of_nat i) Hl) as (out & Hout & smp & Hs & Hw).
  { by rewrite list_lookup_fmap, lookup_seq_lt. }
  rewrite Hsmp in Hs. injection Hs as <-.
  exists t, x, y, z, sc, out. done.
Qed.

(** X15. On a non-empty simple file of [N] well-formed lines read with a
    positive start offset [s], [convertToSimpleXYZ] always ends in
    [IndexError]: it writes the lines of the frames 0 to [N - 2 * s - 1]
    (none when [2 * s >= N]) and raises at the next frame. *)
Theorem simple_export_with_offset data s :
  Forall well_formed data → data ≠ [] → (0 < s)%Z →
  ∃ lines,
    convertToSimpleXYZ (Simple data s) = (lines, Raise IndexError) ∧
    length lines = Z.to_nat (Z.of_nat (length data) - 2 * s).
Proof.
  intros Hwf Hne Hs. unfold convertToSimpleXYZ. cbn [len_data].
  rewrite py_range_from_zero.
  set (n := length data). set (j := Z.to_nat (Z.of_nat n - 2 * s)).
  assert (Hn : 0 < n) by (unfold n; destruct data; [done|simpl; lia]).
  assert (Hj : j < n) by lia.
  assert (Hsplit : seq 0 n = seq 0 j ++ j :: seq (S j) (n - S j)).
  { transitivity (seq 0 (j + S (n - S j))); [f_equal; lia|]. by rewrite seq_app. }
  rewrite Hsplit, fmap_app, fmap_cons.
  destruct (export_loop_raises (Simple data s) (Z.of_nat <$> seq 0 j) (Z.of_nat j)
              (Z.of_nat <$> seq (S j) (n - S j)) [] IndexError)
    as (lines & Hrun & Hlen).
  - apply Forall_fmap, Forall_forall. intros i Hi. apply elem_of_seq in Hi.
    apply (simple_in_range data s (Z.of_nat i) Hwf). fold n. lia.
  - apply (simple_out_of_range data s (Z.of_nat j) Hwf). fold n. lia.
  - exists lines. rewrite length_fmap, length_seq in Hlen. done.
Qed.

End SimpleReader.

(** ** Association gaps and the TUM constructor *)

Section AssociationGaps.
Context `{PyBuiltins} `{JsonScalars}.

(** X16. In a TUM or EuRoC reader whose records are well formed and whose
    map was built by [associate] from these records, the reconstruction of a
    frame returns exactly when the frame and its predecessor (both shifted by
    the start offset) are keys of the map. *)
Theorem associated_returns_iff tum kind first_list data offset max_difference
    m n s frame_id :
  associate kind first_list data offset max_difference = Ok (m, n) →
  Forall well_formed_row data →
  is_ok (getTimePoseAndAbsoluteScale (associated_reader tum data m s) frame_id) ↔
  is_Some (m !! (frame_id + s - 1)%Z) ∧ is_Some (m !! (frame_id + s)%Z).
Proof.
  intros Ha Hwf.
  set (gt := associated_reader tum data m s).
  assert (Hcall : getTimePoseAndAbsoluteScale gt frame_id = reconstruct_xyz gt frame_id)
    by (by destruct tum).
  assert (Hstart : start_frame_id gt = s) by (by destruct tum).
  assert (Hline : ∀ j, getDataLine gt j = associated_line data m j)
    by (by destruct tum).
  split.
  - intros [smp Hs]. rewrite Hcall in Hs. unfold reconstruct_xyz in Hs.
    rewrite Hstart, !Hline in Hs.
    apply bind_ok in Hs as (ssp & Hp & Hs).
    do 3 (apply bind_ok in Hs as (? & _ & Hs)).
    apply bind_ok in Hs as (ss & Hc & _).
    unfold associated_line, dict_get in Hp, Hc.
    destruct (m !! (frame_id + s - 1)%Z); [|done].
    destruct (m !! (frame_id + s)%Z); [|done]. eauto.
  - intros [[ep Hp] [ec Hc]].
    destruct (associate_inv _ _ _ _ _ _ _ Ha) as (st & miss & Hrun & -> & _).
    apply associate_run_inv in Hrun as [Hinv _].
    assert (Hres : ∀ k e, matches st !! k = Some e →
              ∃ b, b ∈ data ∧ getDataLine gt k = Ok b).
    { intros k e Hk.
      destruct (inv_entry _ _ _ _ _ Hinv _ _ Hk)
        as (ia & ib & d & rest & -> & -> & _ & _ & a & b & _ & Hb & _).
      simpl in Hb. exists b. split; [by eapply list_elem_of_lookup_2|].
      rewrite Hline. unfold associated_line, dict_get. rewrite Hk. simpl.
      change (py_getitem (PInt (Z.of_nat ib) :: PFloat d :: rest) 0)
        with (Ok (PInt (Z.of_nat ib)) : result pyval). simpl.
      rewrite py_getitem_nat. by apply list_get_ok. }
    destruct (Hres _ _ Hp) as (bp & Hbp & Hlp).
    destruct (Hres _ _ Hc) as (bc & Hbc & Hlc).
    rewrite Forall_forall in Hwf.
    destruct (Hwf _ Hbp) as (_ & [xp Hxp] & [yp Hyp] & [zp Hzp]).
    destruct (Hwf _ Hbc) as ([t Ht] & [x Hx] & [y Hy] & [z Hz]).
    rewrite Hcall. unfold reconstruct_xyz. rewrite Hstart, Hlp. cbn [bind].
    rewrite Hxp, Hyp, Hzp. cbn [bind]. rewrite Hlc. cbn [bind].
    rewrite Ht, Hx, Hy, Hz. cbn [bind]. unfold is_ok. eauto.
Qed.

(** X17. A TUM ground-truth file that holds nothing after its three header
    lines constructs, without sidecar, a reader with no record and an empty
    map, and writes an empty sidecar, whatever the association file holds;
    the trajectory of this reader is empty and every reconstruction raises
    [KeyError]. *)
Theorem tum_init_header_only groundtruth associations s frame_id :
  length groundtruth ≤ 3 →
  tum_init groundtruth associations None s = Ok (Tum [] ∅ s, Some []) ∧
  getFull3dTrajectory (Tum [] ∅ s) = Ok ([], []) ∧
  getTimePoseAndAbsoluteScale (Tum [] ∅ s) frame_id = Raise KeyError.
Proof.
  intros Hlen. split_and!.
  - unfold tum_init, load_or_associate.
    rewrite drop_ge by done. unfold split_lines at 1. cbn [fmap list_fmap].
    rewrite associate_no_second. cbn [bind fst snd].
    rewrite !fmap_empty. unfold json_dump. by rewrite map_to_list_empty.
  - done.
  - done.
Qed.

End AssociationGaps.

(** ** Witnesses for the further properties *)

(** Proves that every line (or record) of a concrete file is well formed by
    running the parser on it. *)
Ltac run_parser :=
  repeat constructor; unfold is_ok; eexists; vm_compute; reflexivity.

Lemma associate_returns_iff_witness :
  is_ok (associate EurocAssoc ex_primary ex_secondary 0 0.1).
Proof.
  apply (associate_returns_iff EurocAssoc ex_primary ex_secondary 0 0.1).
  right. right. split; run_parser.
Defined.

Lemma associate_maximal_witness :
  is_Some (ex_matches !! Z.of_nat 0) ∨
  ∃ k e, ex_matches !! k = Some e ∧ head e = Some (PInt (Z.of_nat 0)).
Proof.
  apply (associate_maximal EurocAssoc ex_primary ex_secondary 0 0.1 ex_matches 1
           0 0 [PFloat 0.0] [PFloat 0.05] 0.05); vm_compute; reflexivity.
Defined.

Lemma associate_size_bound_witness :
  size ex_matches ≤ length ex_secondary ∧ size ex_matches ≤ length ex_primary ∧
  length ex_primary - length ex_secondary ≤ 1.
Proof.
  apply (associate_size_bound EurocAssoc ex_primary ex_secondary 0 0.1 ex_matches 1).
  vm_compute. reflexivity.
Defined.

Lemma associate_keeps_closest_witness :
  ∃ ia0 ib0 d0 rest,
    ex_matches !! Z.of_nat ia0 = Some (PInt (Z.of_nat ib0) :: PFloat d0 :: rest) ∧
    ∀ ia' ib' a' b' d',
      ex_primary !! ia' = Some a' → ex_secondary !! ib' = Some b' →
      stamp_diff 0 a' b' = Ok d' → (d' <? 0.1)%float = true →
      (d0 <=? d')%float = true.
Proof.
  apply (associate_keeps_closest EurocAssoc ex_primary ex_secondary 0 0.1 ex_matches 1
           0 0 [PFloat 0.0] [PFloat 0.05] 0.05); vm_compute; reflexivity.
Defined.

Lemma associate_variants_agree_witness :
  associate EurocAssoc ex_primary ex_secondary 0 0.1
    = Ok (take 2 <$> (<[1%Z := [PInt 1; PFloat 0.020000000000000018;
                                PFloat 1.0; PFloat 1.02]]>
                       (<[0%Z := [PInt 0; PFloat 0.05; PFloat 0.0; PFloat 0.05]]> ∅)),
          1).
Proof.
  apply (associate_variants_agree ex_primary ex_secondary 0 0.1).
  vm_compute. reflexivity.
Defined.


Lemma closest_timestamp_spec_witness :
  getClosestTimestamp (Simple ex_lines 0) None 2.2 = Ok (2, [1; 2; 3])%float ∧
  ∃ i, [1; 2; 3]%float !! i = Some 2%float ∧
    (Forall (λ t, is_nan (abs (t - 2.2)) = false) [1; 2; 3]%float →
     (∀ j t, [1; 2; 3]%float !! j = Some t →
        (abs (2 - 2.2) <=? abs (t - 2.2))%float = true) ∧
     (∀ j t, j < i → [1; 2; 3]%float !! j = Some t →
        (abs (2 - 2.2) <? abs (t - 2.2))%float = true)).
Proof.
  assert (Hrun : getClosestTimestamp (Simple ex_lines 0) None 2.2
                   = Ok (2, [1; 2; 3])%float) by (vm_compute; reflexivity).
  split; [exact Hrun|].
  exact (proj2 (closest_timestamp_spec (Simple ex_lines 0) None 2.2 2
                  [1; 2; 3]%float Hrun)).
Defined.

Lemma closest_timestamp_empty_witness :
  is_ok (getClosestTimestamp (Simple ex_lines 0) (Some [1; 2; 3]%float) 2.2) ∧
  getClosestTimestamp (Simple (take 2 ex_lines) 0) None 2.2 = Raise ValueError.
Proof.
  destruct (closest_timestamp_empty (Simple (take 2 ex_lines) 0) 2.2
              [1; 2; 3]%float 2) as (_ & _ & Hnone).
  destruct (closest_timestamp_empty (Simple ex_lines 0) 2.2
              [1; 2; 3]%float 5) as (Hsome & _ & _).
  split.
  - apply Hsome. discriminate.
  - apply Hnone; [vm_compute; reflexivity|lia].
Defined.

Lemma associate_resolves_witness :
  ∃ ia ib a b d,
    2%Z = Z.of_nat ia ∧ ex_images !! ia = Some a ∧ ex_rows !! ib = Some b ∧
    head [PInt 2; PFloat 0] = Some (PInt (Z.of_nat ib)) ∧
    stamp_diff 0 a b = Ok d ∧
    getDataLine (associated_reader false ex_rows ex_assoc 0) 2 = Ok b.
Proof.
  apply (associate_resolves false EurocAssoc ex_images ex_rows 0 0.5 ex_assoc 0 0
           2 [PInt 2; PFloat 0]); vm_compute; reflexivity.
Defined.

Lemma export_fails_on_associated_witness :
  convertToSimpleXYZ (associated_reader false ex_rows ex_assoc 0)
    = ([], Raise KeyError).
Proof.
  apply (export_fails_on_associated false EurocAssoc ex_images ex_rows 0 0.5
           ex_assoc 0 0); [vm_compute; reflexivity|discriminate|lia].
Defined.

Lemma simple_returns_iff_witness :
  is_ok (getTimePoseAndAbsoluteScale (Simple ex_lines 1) (-4)) ∧
  getTimePoseAndAbsoluteScale (Simple ex_lines 1) 3 = Raise IndexError.
Proof.
  destruct (simple_returns_iff ex_lines 1 (-4)) as [Hiff _]; [run_parser|].
  destruct (simple_returns_iff ex_lines 1 3) as [_ Hout]; [run_parser|].
  split.
  - apply Hiff. simpl. lia.
  - apply Hout. simpl. lia.
Defined.

Lemma simple_full_trajectory_witness :
  ∃ trajectory timestamps,
    getFull3dTrajectory (Simple ex_lines 0) = Ok (trajectory, timestamps) ∧
    length trajectory = 3 ∧ length timestamps = 3.
Proof.
  destruct (simple_full_trajectory ex_lines)
    as (trajectory & timestamps & Hrun & Hl1 & Hl2 & _); [run_parser|].
  exists trajectory, timestamps. done.
Defined.

Lemma simple_export_witness :
  ∃ lines, convertToSimpleXYZ (Simple ex_lines 0) = (lines, Ok ()) ∧ length lines = 5.
Proof.
  destruct (simple_export ex_lines) as (lines & Hrun & Hlen & _); [run_parser|].
  exists lines. done.
Defined.

Lemma simple_export_with_offset_witness :
  ∃ lines,
    convertToSimpleXYZ (Simple ex_lines 1) = (lines, Raise IndexError) ∧
    length lines = 3.
Proof.
  apply (simple_export_with_offset ex_lines 1); [run_parser|discriminate|lia].
Defined.

Lemma associated_returns_iff_witness :
  is_ok (getTimePoseAndAbsoluteScale (associated_reader false ex_rows ex_assoc 0) 3) ∧
  ¬ is_ok (getTimePoseAndAbsoluteScale
             (associated_reader false ex_rows ex_assoc 0) 5).
Proof.
  split.
  - apply (associated_returns_iff false EurocAssoc ex_images ex_rows 0 0.5
             ex_assoc 0 0 3); [vm_compute; reflexivity|run_parser|].
    split; eexists; vm_compute; reflexivity.
  - intros Hok.
    apply (associated_returns_iff false EurocAssoc ex_images ex_rows 0 0.5
             ex_assoc 0 0 5) in Hok as [_ [e He]];
      [|vm_compute; reflexivity|run_parser].
    vm_compute in He. discriminate He.
Defined.

Lemma tum_init_header_only_witness :
  tum_init ["# ground truth trajectory"; "# file: data"; "# timestamp tx ty tz"]
    ["1.0 rgb/1.0.png"] None 0 = Ok (Tum [] ∅ 0, Some []) ∧
  getFull3dTrajectory (Tum [] ∅ 0) = Ok ([], []) ∧
  getTimePoseAndAbsoluteScale (Tum [] ∅ 0) 1 = Raise KeyError.
Proof.
  apply (tum_init_header_only
           ["# ground truth trajectory"; "# file: data"; "# timestamp tx ty tz"]
           ["1.0 rgb/1.0.png"] 0 1).
  simpl. lia.
Defined.
